(** * autonomous-docs-mcp: drift detection, analysis and validation

    A shallow embedding of the documentation tooling of the repository:
    - [examples/continuous-sync/sync-checker.js] (module [SyncChecker]),
    - [src/analyzers/codebase-analyzer.ts], classes [CodebaseAnalyzer]
      and [DocumentationValidator] (modules of the same names),
    together with the properties the specification states about them.

    JavaScript values are modelled as follows.  Strings are [string]
    (paths and file contents are taken to be ASCII), numbers that hold
    instants are rationals [Q] (git prints whole seconds, the file system
    gives fractional milliseconds; the rounding of double-precision
    arithmetic is not modelled), counters are [nat], day counts are [Z].
    An exception is the [Throw] case of [result].  The file system is a
    finite tree without links; the processes and libraries the code
    calls ([git log], the [glob] matcher, [gray-matter], the JSON reader)
    are fields of the [World] the code runs in. *)

From Stdlib Require Import ZArith QArith Qround Lqa String Ascii List Lia Bool.
From stdpp Require Import base option list gmap strings.
Import ListNotations.

Open Scope string_scope.

(** ** Results of fallible calls *)

Inductive JsError : Type :=
| ENOENT (path : string)        (* no such file or directory *)
| ENOTDIR (path : string)       (* readdir on something that is no directory *)
| EISDIR (path : string)        (* readFile on a directory *)
| ExecError (command : string)  (* child process ended with a failure *)
| SyntaxError (what : string).  (* JSON or YAML that does not parse *)

Inductive result (A : Type) : Type :=
| Ok (a : A)
| Throw (e : JsError).

Arguments Ok {A} a.
Arguments Throw {A} e.

#[global] Instance result_ret : MRet result := fun A a => Ok a.
#[global] Instance result_bind : MBind result := fun A B f m =>
  match m with
  | Ok a => f a
  | Throw e => Throw e
  end.

Definition is_ok {A} (r : result A) : bool :=
  match r with Ok _ => true | Throw _ => false end.

(** [try { body } catch { handler }] *)
Definition try_catch {A} (body : result A) (handler : JsError -> result A) : result A :=
  match body with
  | Ok a => Ok a
  | Throw e => handler e
  end.

(** A [for (const x of xs)] loop whose body may throw, threading the
    mutated state. *)
Fixpoint for_of {A S} (body : A -> S -> result S) (xs : list A) (s : S) : result S :=
  match xs with
  | [] => Ok s
  | x :: rest => s' ← body x s; for_of body rest s'
  end.

(** ** JavaScript string methods *)

Module Js.

Definition startsWith (s p : string) : bool := String.prefix p s.

Definition endsWith (s p : string) : bool :=
  let n := String.length s in
  let m := String.length p in
  (m <=? n)%nat && String.eqb (String.substring (n - m) m s) p.

Fixpoint includes (s p : string) : bool :=
  String.prefix p s ||
  match s with
  | EmptyString => false
  | String _ rest => includes rest p
  end.

Definition isWhiteSpace (c : ascii) : bool :=
  let n := nat_of_ascii c in
  (n =? 32)%nat || ((9 <=? n)%nat && (n <=? 13)%nat).

Fixpoint trimStart (s : string) : string :=
  match s with
  | String c rest => if isWhiteSpace c then trimStart rest else s
  | EmptyString => EmptyString
  end.

Fixpoint trimEnd (s : string) : string :=
  match s with
  | EmptyString => EmptyString
  | String c rest =>
      match trimEnd rest with
      | EmptyString => if isWhiteSpace c then EmptyString else String c EmptyString
      | t => String c t
      end
  end.

Definition trim (s : string) : string := trimEnd (trimStart s).

Definition lowerChar (c : ascii) : ascii :=
  let n := nat_of_ascii c in
  if (65 <=? n)%nat && (n <=? 90)%nat then ascii_of_nat (n + 32) else c.

Fixpoint toLowerCase (s : string) : string :=
  match s with
  | EmptyString => EmptyString
  | String c rest => String (lowerChar c) (toLowerCase rest)
  end.

(** [s.split(sep)] for a one-character separator. *)
Fixpoint split (sep : ascii) (s : string) : list string :=
  match s with
  | EmptyString => [EmptyString]
  | String c rest =>
      if Ascii.eqb c sep then EmptyString :: split sep rest
      else match split sep rest with
           | [] => [String c EmptyString]
           | seg :: segs => String c seg :: segs
           end
  end.

(** [parts.join(sep)] *)
Fixpoint join (sep : string) (parts : list string) : string :=
  match parts with
  | [] => EmptyString
  | [p] => p
  | p :: rest => p ++ sep ++ join sep rest
  end.

(** Truthiness of a string: the empty string is falsy. *)
Definition truthy_string (s : string) : bool :=
  negb (String.eqb s EmptyString).

(** *** [parseInt(s)] without a radix.
    Leading white space is skipped, a sign is read, a [0x] prefix
    selects base sixteen, and the longest run of digits is the value;
    without a digit the result is [NaN], here [None]. *)

Definition digitValue (radix : nat) (c : ascii) : option Z :=
  let n := nat_of_ascii c in
  let v :=
    if (48 <=? n)%nat && (n <=? 57)%nat then Some (n - 48)%nat
    else if (97 <=? n)%nat && (n <=? 122)%nat then Some (n - 87)%nat
    else if (65 <=? n)%nat && (n <=? 90)%nat then Some (n - 55)%nat
    else None in
  match v with
  | Some d => if (d <? radix)%nat then Some (Z.of_nat d) else None
  | None => None
  end.

Fixpoint digits (radix : nat) (s : string) (acc : option Z) : option Z :=
  match s with
  | EmptyString => acc
  | String c rest =>
      match digitValue radix c with
      | Some d =>
          digits radix rest
            (Some (match acc with
                   | Some a => a * Z.of_nat radix + d
                   | None => d
                   end)%Z)
      | None => acc
      end
  end.

Definition parseInt (s : string) : option Z :=
  let s := trimStart s in
  let '(sign, s) :=
    match s with
    | String "-" rest => ((-1)%Z, rest)
    | String "+" rest => (1%Z, rest)
    | _ => (1%Z, s)
    end in
  let '(radix, s) :=
    match s with
    | String "0" (String "x" rest) => (16%nat, rest)
    | String "0" (String "X" rest) => (16%nat, rest)
    | _ => (10%nat, s)
    end in
  match digits radix s None with
  | Some v => Some (sign * v)%Z
  | None => None
  end.

(** [parseInt(s) || 0]: [NaN] and zero are falsy. *)
Definition parseInt_or_0 (s : string) : Z :=
  match parseInt s with
  | Some v => v
  | None => 0%Z
  end.

(** *** Global regular expressions.
    [exec_all m s] is the list of matches the loop
    [while ((match = re.exec(s)) !== null)] sees for a global regex:
    [m] tries the regex at the head of its argument and gives the
    captured groups with the length of the match, the search resumes
    after each match, and moves on by one character where there is
    none.  The regexes of this program never match the empty string. *)
Fixpoint exec_from {A} (m : string -> option (A * nat)) (skip : nat) (s : string)
  : list A :=
  match s with
  | EmptyString => []
  | String _ rest =>
      match skip with
      | S k => exec_from m k rest
      | O =>
          match m s with
          | Some (a, len) => a :: exec_from m (len - 1) rest
          | None => exec_from m 0 rest
          end
      end
  end.

Definition exec_all {A} (m : string -> option (A * nat)) (s : string) : list A :=
  exec_from m 0 s.

(** The longest prefix of characters satisfying [p], and what follows. *)
Fixpoint span (p : ascii -> bool) (s : string) : string * string :=
  match s with
  | EmptyString => (EmptyString, EmptyString)
  | String c rest =>
      if p c then let '(a, b) := span p rest in (String c a, b)
      else (EmptyString, s)
  end.

(** The text before the first occurrence of [needle], if there is one. *)
Fixpoint before_first (needle s : string) : option string :=
  if String.prefix needle s then Some EmptyString
  else match s with
       | EmptyString => None
       | String c rest =>
           match before_first needle rest with
           | Some b => Some (String c b)
           | None => None
           end
       end.

(** [Array.from(new Set(xs))]: first occurrences, in insertion order. *)
Definition unique (xs : list string) : list string :=
  fold_left (fun acc x => if existsb (String.eqb x) acc then acc else acc ++ [x])%list
            xs [].

(** Decimal rendering of a non-negative integer, as a template string
    or a process printing a number does it. *)
Fixpoint digits_of (fuel : nat) (n : N) (acc : string) : string :=
  match fuel with
  | O => acc
  | S f =>
      let acc' := String (ascii_of_N (48 + n mod 10)) acc in
      if (n <? 10)%N then acc' else digits_of f (n / 10)%N acc'
  end.

Definition toString (n : N) : string :=
  digits_of (S (N.size_nat n)) n EmptyString.

End Js.

(** ** The [path] module of Node.js, POSIX flavour *)

Module Path.

Definition sep : ascii := "/"%char.

Definition isAbsolute (p : string) : bool := Js.startsWith p "/".

Definition is_dotdot (s : string) : bool := String.eqb s "..".

(** One step of [normalizeString]: [stack] holds the segments kept so
    far, [seg] is the next segment of the input. *)
Definition normalize_step (allowAboveRoot : bool) (stack : list string) (seg : string)
  : list string :=
  if String.eqb seg "" || String.eqb seg "." then stack
  else if is_dotdot seg then
    match last stack with
    | Some top =>
        if is_dotdot top then (stack ++ [seg])%list else removelast stack
    | None => if allowAboveRoot then [seg] else []
    end
  else (stack ++ [seg])%list.

Definition normalizeSegments (allowAboveRoot : bool) (segs : list string) : list string :=
  fold_left (normalize_step allowAboveRoot) segs [].

Definition normalize (p : string) : string :=
  if String.eqb p "" then "."
  else
    let absolute := isAbsolute p in
    let trailingSeparator := Js.endsWith p "/" in
    let body := Js.join "/" (normalizeSegments (negb absolute) (Js.split sep p)) in
    if String.eqb body "" then
      if absolute then "/" else if trailingSeparator then "./" else "."
    else
      (if absolute then "/" else "") ++ body ++ (if trailingSeparator then "/" else "").

(** [path.join(...parts)] *)
Definition join (parts : list string) : string :=
  match List.filter (fun p => negb (String.eqb p "")) parts with
  | [] => "."
  | nonempty => normalize (Js.join "/" nonempty)
  end.

(** The segments of [path.resolve(p)], below the root, for a process
    whose working directory has the segments [cwd]. *)
Definition resolve (cwd : list string) (p : string) : list string :=
  normalizeSegments false ((if isAbsolute p then [] else cwd) ++ Js.split sep p)%list.

Fixpoint strip_common (a b : list string) : list string * list string :=
  match a, b with
  | x :: a', y :: b' => if String.eqb x y then strip_common a' b' else (a, b)
  | _, _ => (a, b)
  end.

(** [path.relative(from, to)] *)
Definition relative (cwd : list string) (from to : string) : string :=
  let '(up, down) := strip_common (resolve cwd from) (resolve cwd to) in
  Js.join "/" (map (fun _ => "..") up ++ down)%list.

Definition is_sep (c : ascii) : bool := Ascii.eqb c sep.

Definition rev_string (s : string) : string :=
  string_of_list_ascii (rev (list_ascii_of_string s)).

(** The last component of [p], trailing separators ignored. *)
Definition lastComponent (p : string) : string :=
  let r := snd (Js.span is_sep (rev_string p)) in
  rev_string (fst (Js.span (fun c => negb (is_sep c)) r)).

(** [path.dirname(p)] *)
Definition dirname (p : string) : string :=
  match p with
  | EmptyString => "."
  | String c0 rest =>
      let hasRoot := is_sep c0 in
      let r := snd (Js.span is_sep (rev_string rest)) in
      match snd (Js.span (fun c => negb (is_sep c)) r) with
      | EmptyString => if hasRoot then "/" else "."
      | String _ before =>
          if hasRoot && String.eqb before "" then "//"
          else String c0 (rev_string before)
      end
  end.

Fixpoint last_dot (s : string) (i : nat) : option nat :=
  match s with
  | EmptyString => None
  | String c rest =>
      match last_dot rest (S i) with
      | Some j => Some j
      | None => if Ascii.eqb c "."%char then Some i else None
      end
  end.

(** [path.extname(p)] *)
Definition extname (p : string) : string :=
  let base := lastComponent p in
  match last_dot base 0 with
  | None => ""
  | Some O => ""
  | Some i =>
      if String.eqb base ".." then ""
      else String.substring i (String.length base - i) base
  end.

(** [path.basename(p, ext)] *)
Definition basename (p ext : string) : string :=
  let base := lastComponent p in
  if String.eqb ext "" then base
  else if String.eqb ext p then ""
  else if Js.endsWith base ext && negb (String.eqb base ext)
       then String.substring 0 (String.length base - String.length ext) base
       else base.

End Path.

(** ** The world the programs run in *)

(** A file-system tree.  [mtimeMs] is the modification time in
    milliseconds, as [fs.statSync] reports it. *)
#[warnings="-register-all"]
Inductive node : Type :=
| File (mtimeMs : Q) (content : string)
| Dir (mtimeMs : Q) (entries : list (string * node)).

(** What [git log -1 --format=%ct <path>] has to work with: either
    the command cannot run at all (git is missing, or the working
    directory is not inside a work tree), or there is a repository that
    knows the time of the last commit of each path that has commits. *)
Inductive GitState : Type :=
| GitUnavailable
| GitRepository (lastCommit : string -> option N).

(** Truthiness-relevant view of a value read from YAML or JSON. *)
Inductive JsValue : Type :=
| JNull
| JBool (b : bool)
| JNumber (n : Z)
| JNaN
| JString (s : string)
| JObject.       (* objects, arrays, dates: always truthy *)

Definition truthy (v : option JsValue) : bool :=
  match v with
  | None => false                (* undefined *)
  | Some JNull => false
  | Some (JBool b) => b
  | Some (JNumber n) => negb (n =? 0)%Z
  | Some JNaN => false
  | Some (JString s) => Js.truthy_string s
  | Some JObject => true
  end.

(** The fields of [package.json] the analyzer reads. *)
Record PackageJson : Type := {
  pkg_name : option string;
  pkg_version : option string;
  pkg_description : option string;
  pkg_repository_url : option string;   (* [pkg.repository?.url], when truthy *)
  pkg_repository : option string;       (* [pkg.repository] otherwise *)
  pkg_author : option string;
  pkg_dependencies : gmap string JsValue;
  pkg_devDependencies : gmap string JsValue
}.

Record World : Type := {
  fs_root : node;                   (* the tree below the root directory *)
  cwd : list string;                (* [process.cwd()], as segments *)
  git : GitState;
  now : string;                     (* [new Date().toISOString()] *)
  (* [minimatch pattern path]: does the glob pattern match the path *)
  minimatch : string -> string -> bool;
  (* [matter(content).data], or the exception of the YAML parser *)
  matter : string -> result (gmap string JsValue);
  (* [JSON.parse] of the text of a package manifest *)
  parseJson : string -> result PackageJson
}.

Module Fs.

Fixpoint assoc (name : string) (entries : list (string * node)) : option node :=
  match entries with
  | [] => None
  | (n, child) :: rest => if String.eqb n name then Some child else assoc name rest
  end.

Fixpoint lookup (n : node) (segs : list string) : option node :=
  match segs with
  | [] => Some n
  | s :: rest =>
      match n with
      | Dir _ entries =>
          match assoc s entries with
          | Some child => lookup child rest
          | None => None
          end
      | File _ _ => None
      end
  end.

Definition at_path (w : World) (p : string) : option node :=
  lookup (fs_root w) (Path.resolve (cwd w) p).

(** [fs.existsSync(p)], [fs.pathExists(p)] *)
Definition existsSync (w : World) (p : string) : bool :=
  match at_path w p with Some _ => true | None => false end.

(** [fs.statSync(p)]: the node itself stands for the [Stats] object. *)
Definition statSync (w : World) (p : string) : result node :=
  match at_path w p with
  | Some n => Ok n
  | None => Throw (ENOENT p)
  end.

Definition isDirectory (n : node) : bool :=
  match n with Dir _ _ => true | File _ _ => false end.

Definition isFile (n : node) : bool :=
  match n with File _ _ => true | Dir _ _ => false end.

Definition mtimeMs (n : node) : Q :=
  match n with File t _ => t | Dir t _ => t end.

(** [fs.readdirSync(p)] *)
Definition readdirSync (w : World) (p : string) : result (list string) :=
  match at_path w p with
  | Some (Dir _ entries) => Ok (map fst entries)
  | Some (File _ _) => Throw (ENOTDIR p)
  | None => Throw (ENOENT p)
  end.

(** [fs.readFile(p, utf-8)] *)
Definition readFile (w : World) (p : string) : result string :=
  match at_path w p with
  | Some (File _ content) => Ok content
  | Some (Dir _ _) => Throw (EISDIR p)
  | None => Throw (ENOENT p)
  end.

(** [fs.readJson(p)] of a package manifest *)
Definition readJson (w : World) (p : string) : result PackageJson :=
  text ← readFile w p; parseJson w text.

End Fs.

(** A double quote, and the command line that [getLastModified] builds. *)
Definition dquote : string := String (ascii_of_nat 34) EmptyString.

Definition git_log_command (filePath : string) : string :=
  "git log -1 --format=%ct " ++ dquote ++ filePath ++ dquote.

(** [execSync] of the [git log -1 --format=%ct] command on [filePath]:
    the standard output of the command, or the exception raised for a
    non-zero exit status.  This follows the behaviour of git: in a
    repository the command prints the commit time of the last commit
    touching the path, followed by a newline.  For a path that exists in
    the work tree but has no commit (an untracked file) it prints nothing
    and exits with status zero; for a path that is neither in the work
    tree nor in the history it fails. *)
Definition execSync_git_log (w : World) (filePath : string) : result string :=
  match git w with
  | GitUnavailable => Throw (ExecError (git_log_command filePath))
  | GitRepository lastCommit =>
      match lastCommit filePath with
      | Some t => Ok (Js.toString t ++ String (ascii_of_nat 10) EmptyString)
      | None =>
          if Fs.existsSync w filePath then Ok EmptyString
          else Throw (ExecError (git_log_command filePath))
      end
  end.

(** ** [examples/continuous-sync/sync-checker.js] *)

Inductive Priority : Type := high | medium | low.

Inductive Status : Type := synced | outdated_status | incomplete.

Module SyncChecker.

(** The object built by [parseArgs]. *)
Record Config : Type := {
  docs : string;
  source : string;
  output : string
}.

Record OutdatedEntry : Type := {
  doc : string;
  o_source : string;
  daysBehind : Z;
  o_priority : Priority
}.

Record MissingEntry : Type := {
  m_source : string;
  expectedDoc : string;
  m_priority : Priority
}.

Record Recommendation : Type := {
  r_type : string;
  message : string;
  files : list string
}.

Record Summary : Type := {
  totalSourceFiles : nat;
  totalDocFiles : nat;
  outdatedDocs : nat;
  missingDocs : nat;
  upToDate : nat
}.

Record SyncReport : Type := {
  timestamp : string;
  status : Status;
  summary : Summary;
  outdated : list OutdatedEntry;
  missing : list MissingEntry;
  recommendations : list Recommendation
}.

(** [getLastModified(filePath)] *)
Definition getLastModified (w : World) (filePath : string) : result Q :=
  try_catch
    (out ← execSync_git_log w filePath;
     let timestamp := Js.trim out in
     Ok (inject_Z (Js.parseInt_or_0 timestamp)))
    (fun _ =>
       st ← Fs.statSync w filePath;
       Ok (Fs.mtimeMs st / 1000)%Q).

(** The inner function [walk] of [findFiles].  The node that
    [directory] names is passed along with it, so that
    [readdirSync(directory)] is the list of its entries and
    [statSync(fullPath)] is the child (lemma [at_path_entry] below shows
    that this is the node the joined path resolves to); the result is
    the list of paths pushed on [files], in order. *)
Fixpoint walk (extensions : list string) (directory : string) (n : node)
  : list string :=
  match n with
  | File _ _ => []
  | Dir _ entries =>
      flat_map
        (fun entry : string * node =>
           let item := fst entry in
           let stat := snd entry in
           let fullPath := Path.join [directory; item] in
           if Fs.isDirectory stat && negb (Js.startsWith item ".")
              && negb (String.eqb item "node_modules")
           then walk extensions fullPath stat
           else if Fs.isFile stat
                   && existsb (fun ext => Js.endsWith item ext) extensions
           then [fullPath]
           else [])
        entries
  end.

(** [findFiles(dir, extensions)]: the first [readdirSync] throws when
    [dir] is missing or is not a directory. *)
Definition findFiles (w : World) (dir : string) (extensions : list string)
  : result (list string) :=
  match Fs.at_path w dir with
  | Some (Dir t entries) => Ok (walk extensions dir (Dir t entries))
  | Some (File _ _) => Throw (ENOTDIR dir)
  | None => Throw (ENOENT dir)
  end.

(** [s.replace(/(suffix1|suffix2|...)$/, replacement)] *)
Fixpoint replace_suffix (suffixes : list string) (replacement s : string) : string :=
  match suffixes with
  | [] => s
  | suf :: rest =>
      if Js.endsWith s suf
      then String.substring 0 (String.length s - String.length suf) s ++ replacement
      else replace_suffix rest replacement s
  end.

(** [relativePath.replace(/\.mdx?$/, '.ts')] *)
Definition doc_to_source_ext : string -> string :=
  replace_suffix [".mdx"; ".md"] ".ts".

(** [relativePath.replace(/\.[jt]sx?$/, '.mdx')] *)
Definition source_to_doc_ext : string -> string :=
  replace_suffix [".jsx"; ".tsx"; ".js"; ".ts"] ".mdx".

Definition sourceEquivalent (w : World) (config : Config) (docFile : string) : string :=
  Path.join [source config;
             doc_to_source_ext (Path.relative (cwd w) (docs config) docFile)].

Definition docEquivalent (w : World) (config : Config) (apiFile : string) : string :=
  Path.join [docs config;
             source_to_doc_ext (Path.relative (cwd w) (source config) apiFile)].

(** [Math.floor((srcMod - docMod) / 86400)] *)
Definition days_between (docMod srcMod : Q) : Z :=
  Qfloor ((srcMod - docMod) / 86400)%Q.

(** [daysBehind > 7 ? 'high' : daysBehind > 3 ? 'medium' : 'low'] *)
Definition priority_of (daysBehind : Z) : Priority :=
  if (7 <? daysBehind)%Z then high
  else if (3 <? daysBehind)%Z then medium
  else low.

Definition bump_outdated (s : Summary) : Summary :=
  {| totalSourceFiles := totalSourceFiles s; totalDocFiles := totalDocFiles s;
     outdatedDocs := S (outdatedDocs s); missingDocs := missingDocs s;
     upToDate := upToDate s |}.

Definition bump_missing (s : Summary) : Summary :=
  {| totalSourceFiles := totalSourceFiles s; totalDocFiles := totalDocFiles s;
     outdatedDocs := outdatedDocs s; missingDocs := S (missingDocs s);
     upToDate := upToDate s |}.

Definition bump_upToDate (s : Summary) : Summary :=
  {| totalSourceFiles := totalSourceFiles s; totalDocFiles := totalDocFiles s;
     outdatedDocs := outdatedDocs s; missingDocs := missingDocs s;
     upToDate := S (upToDate s) |}.

(** The body of the first loop of [analyzeSync], over [docFiles]. *)
Definition check_outdated (w : World) (config : Config) (docFile : string)
           (results : SyncReport) : result SyncReport :=
  let relativePath := Path.relative (cwd w) (docs config) docFile in
  let sourceEquivalent := sourceEquivalent w config docFile in
  if Fs.existsSync w sourceEquivalent then
    docMod ← getLastModified w docFile;
    srcMod ← getLastModified w sourceEquivalent;
    let daysBehind := days_between docMod srcMod in
    if (0 <? daysBehind)%Z then
      Ok {| timestamp := timestamp results; status := status results;
            summary := bump_outdated (summary results);
            outdated :=
              outdated results ++
              [{| doc := relativePath;
                  o_source := Path.relative (cwd w) (source config) sourceEquivalent;
                  daysBehind := daysBehind;
                  o_priority := priority_of daysBehind |}];
            missing := missing results;
            recommendations := recommendations results |}
    else
      Ok {| timestamp := timestamp results; status := status results;
            summary := bump_upToDate (summary results);
            outdated := outdated results;
            missing := missing results;
            recommendations := recommendations results |}
  else Ok results.

Definition is_api_file (f : string) : bool :=
  Js.includes f "/api/" || Js.includes f "/routes/" || Js.includes f "/components/".

(** The body of the second loop of [analyzeSync], over [apiFiles]. *)
Definition check_missing (w : World) (config : Config) (results : SyncReport)
           (apiFile : string) : SyncReport :=
  let relativePath := Path.relative (cwd w) (source config) apiFile in
  let docEquivalent := docEquivalent w config apiFile in
  if negb (Fs.existsSync w docEquivalent) then
    {| timestamp := timestamp results; status := status results;
       summary := bump_missing (summary results);
       outdated := outdated results;
       missing :=
         missing results ++
         [{| m_source := relativePath;
             expectedDoc := Path.relative (cwd w) (docs config) docEquivalent;
             m_priority := if Js.includes apiFile "/api/" then high else medium |}];
       recommendations := recommendations results |}
  else results.

Definition count_text (n : nat) : string := Js.toString (N.of_nat n).

(** The two [if] statements that close [analyzeSync]. *)
Definition recommend_update (results : SyncReport) : SyncReport :=
  if (0 <? length (outdated results))%nat then
    {| timestamp := timestamp results; status := outdated_status;
       summary := summary results;
       outdated := outdated results; missing := missing results;
       recommendations :=
         recommendations results ++
         [{| r_type := "update";
             message := "Update " ++ count_text (length (outdated results))
                        ++ " outdated documentation file(s)";
             files := map doc (firstn 5 (outdated results)) |}] |}
  else results.

Definition recommend_create (results : SyncReport) : SyncReport :=
  if (0 <? length (missing results))%nat then
    {| timestamp := timestamp results; status := incomplete;
       summary := summary results;
       outdated := outdated results; missing := missing results;
       recommendations :=
         recommendations results ++
         [{| r_type := "create";
             message := "Create documentation for "
                        ++ count_text (length (missing results))
                        ++ " undocumented file(s)";
             files := map expectedDoc (firstn 5 (missing results)) |}] |}
  else results.

Definition source_extensions : list string := [".ts"; ".tsx"; ".js"; ".jsx"; ".py"].
Definition doc_extensions : list string := [".md"; ".mdx"].

Definition initial_report (w : World) (sourceFiles docFiles : list string) : SyncReport :=
  {| timestamp := now w;
     status := synced;
     summary := {| totalSourceFiles := length sourceFiles;
                   totalDocFiles := length docFiles;
                   outdatedDocs := 0; missingDocs := 0; upToDate := 0 |};
     outdated := []; missing := []; recommendations := [] |}.

(** [analyzeSync(config)], after the two calls of [findFiles]. *)
Definition analyzeFiles (w : World) (config : Config) (sourceFiles docFiles : list string)
  : result SyncReport :=
  let results := initial_report w sourceFiles docFiles in
  results ← for_of (check_outdated w config) docFiles results;
  let apiFiles := List.filter is_api_file sourceFiles in
  let results := fold_left (check_missing w config) apiFiles results in
  Ok (recommend_create (recommend_update results)).

(** [analyzeSync(config)] *)
Definition analyzeSync (w : World) (config : Config) : result SyncReport :=
  sourceFiles ← findFiles w (source config) source_extensions;
  docFiles ← findFiles w (docs config) doc_extensions;
  analyzeFiles w config sourceFiles docFiles.

(** What a run of [main] leaves behind: the exit status, the lines on
    standard error, and the report file written, if any.  An exception
    nobody catches ends the process with status 1 and writes nothing. *)
Record Outcome : Type := {
  exitCode : nat;
  stderr : list string;
  uncaught : option JsError;
  written : option (string * SyncReport)
}.

(** [main()], from the parsed [config] on. *)
Definition main (w : World) (config : Config) : Outcome :=
  if negb (Fs.existsSync w (docs config)) then
    {| exitCode := 1;
       stderr := ["Error: Docs path not found: " ++ docs config];
       uncaught := None; written := None |}
  else if negb (Fs.existsSync w (source config)) then
    {| exitCode := 1;
       stderr := ["Error: Source path not found: " ++ source config];
       uncaught := None; written := None |}
  else
    match analyzeSync w config with
    | Throw e =>
        {| exitCode := 1; stderr := []; uncaught := Some e; written := None |}
    | Ok results =>
        {| exitCode := match status results with synced => 0 | _ => 1 end;
           stderr := [];
           uncaught := None;
           written := Some (output config, results) |}
    end.

End SyncChecker.

(** ** The [glob] package

    [glob(pattern, {cwd, ignore, absolute: false})] walks the tree below
    [cwd] and gives the paths, relative to [cwd], that match [pattern]
    and none of the [ignore] patterns.  Pattern matching itself is the
    [minimatch] of the world.  A [cwd] that is missing, or is no
    directory, has nothing below it: the result is empty and nothing is
    thrown. *)
Module Glob.

Fixpoint descendants (prefix : string) (n : node) : list string :=
  match n with
  | File _ _ => []
  | Dir _ entries =>
      flat_map
        (fun entry : string * node =>
           let p := if String.eqb prefix "" then fst entry
                    else prefix ++ "/" ++ fst entry in
           p :: descendants p (snd entry))
        entries
  end.

Definition glob (w : World) (pattern cwd : string) (ignore : list string)
  : list string :=
  match Fs.at_path w cwd with
  | Some n =>
      List.filter
        (fun p => minimatch w pattern p
                  && negb (existsb (fun ig => minimatch w ig p) ignore))
        (descendants "" n)
  | None => []
  end.

End Glob.

(** ** [src/analyzers/codebase-analyzer.ts]: class [CodebaseAnalyzer] *)

Module CodebaseAnalyzer.

Record AnalysisOptions : Type := {
  includePatterns : option (list string);
  excludePatterns : option (list string);
  depth : string
}.

Record FileNode : Type := {
  fn_path : string;
  fn_name : string;
  fn_type : string;
  language : option string
}.

Record ProjectStructure : Type := {
  root : string;
  directories : list string;       (* always empty *)
  files : list FileNode;
  languages : list string;
  frameworks : list string
}.

Record APIDefinition : Type := {
  api_name : string;
  api_type : string;
  api_file : string;
  line : nat;
  signature : string;
  api_description : option string
}.

Record Component : Type := {
  c_name : string;
  c_type : string;
  c_file : string;
  c_description : option string
}.

Inductive NeedType : Type := need_missing | need_outdated | need_incomplete.

Record DocumentationNeed : Type := {
  need_type : NeedType;
  need_file : string;
  item : string;
  priority : Priority;
  suggestion : string
}.

#[warnings="-register-all"]
Inductive NavigationEntry : Type :=
| Page (name : string)
| Group (group : string) (pages : list NavigationEntry).

Record ProjectMetadata : Type := {
  md_name : string;
  version : option string;
  md_description : option string;
  repository : option string;
  author : option string
}.

Record CodebaseAnalysis : Type := {
  structure : ProjectStructure;
  apis : list APIDefinition;
  components : list Component;
  documentation_needs : list DocumentationNeed;
  suggested_navigation : list NavigationEntry;
  metadata : ProjectMetadata
}.

Definition defaultExcludes : list string :=
  ["**/node_modules/**"; "**/dist/**"; "**/build/**"; "**/.git/**";
   "**/venv/**"; "**/__pycache__/**"; "**/*.min.js"; "**/.next/**"].

Definition defaultPatterns : list string :=
  ["**/*.ts"; "**/*.tsx"; "**/*.js"; "**/*.jsx"; "**/*.py"; "**/*.go";
   "**/*.rs"; "**/*.java"; "**/*.md"; "**/*.mdx"].

(** [discoverFiles(rootPath, includePatterns, excludePatterns)] *)
Definition discoverFiles (w : World) (rootPath : string)
           (includePatterns : option (list string)) (excludePatterns : list string)
  : list string :=
  let patterns := default defaultPatterns includePatterns in
  let allFiles :=
    fold_left
      (fun allFiles pattern =>
         allFiles ++ Glob.glob w pattern rootPath excludePatterns)%list
      patterns [] in
  Js.unique allFiles.

(** [detectLanguage(ext)] *)
Definition detectLanguage (ext : string) : option string :=
  if String.eqb ext ".ts" then Some "TypeScript"
  else if String.eqb ext ".tsx" then Some "TypeScript"
  else if String.eqb ext ".js" then Some "JavaScript"
  else if String.eqb ext ".jsx" then Some "JavaScript"
  else if String.eqb ext ".py" then Some "Python"
  else if String.eqb ext ".go" then Some "Go"
  else if String.eqb ext ".rs" then Some "Rust"
  else if String.eqb ext ".java" then Some "Java"
  else None.

Definition fileNode (file : string) : FileNode :=
  let ext := Path.extname file in
  {| fn_path := file; fn_name := Path.basename file "";
     fn_type := ext; language := detectLanguage ext |}.

Definition detectFrameworks (pkg : PackageJson) : list string :=
  let deps : gmap string JsValue := pkg_devDependencies pkg ∪ pkg_dependencies pkg in
  ((if truthy (deps !! "react") then ["React"] else [])
   ++ (if truthy (deps !! "next") then ["Next.js"] else [])
   ++ (if truthy (deps !! "vue") then ["Vue"] else [])
   ++ (if truthy (deps !! "express") then ["Express"] else [])
   ++ (if truthy (deps !! "fastapi") then ["FastAPI"] else []))%list.

(** [buildStructure(rootPath, files)] *)
Definition buildStructure (w : World) (rootPath : string) (files : list string)
  : result ProjectStructure :=
  let fileNodes := map fileNode files in
  let languages := Js.unique (omap (fun f => detectLanguage (Path.extname f)) files) in
  let packageJsonPath := Path.join [rootPath; "package.json"] in
  frameworks ←
    (if Fs.existsSync w packageJsonPath then
       pkg ← Fs.readJson w packageJsonPath; Ok (detectFrameworks pkg)
     else Ok []);
  Ok {| root := rootPath; directories := []; files := fileNodes;
        languages := languages; frameworks := frameworks |}.

Definition is_api_candidate (f : string) : bool :=
  Js.includes f "api" || Js.includes f "route" || Js.includes f "endpoint"
  || Js.endsWith f ".ts" || Js.endsWith f ".py".

(** [extractAPIs(files, depth)] *)
Definition extractAPIs (files : list string) (depth : string) : list APIDefinition :=
  let apiFiles := List.filter is_api_candidate files in
  map (fun file =>
         {| api_name := Path.basename file (Path.extname file);
            api_type := "endpoint";
            api_file := file;
            line := 1;
            signature := "function()";
            api_description := Some ("API from " ++ file) |})
      (firstn (if String.eqb depth "quick" then 10 else 100) apiFiles).

Definition is_component_candidate (f : string) : bool :=
  Js.endsWith f ".tsx" || Js.endsWith f ".jsx" || Js.includes f "component".

(** [extractComponents(files)] *)
Definition extractComponents (files : list string) : list Component :=
  map (fun file =>
         {| c_name := Path.basename file (Path.extname file);
            c_type := "react";
            c_file := file;
            c_description := None |})
      (List.filter is_component_candidate files).

Definition readme_need : DocumentationNeed :=
  {| need_type := need_missing; need_file := "README.md"; item := "Project README";
     priority := high; suggestion := "Create comprehensive project overview" |}.

(** [!api.description]: an absent or empty description is falsy. *)
Definition lacks_description (api : APIDefinition) : bool :=
  match api_description api with
  | Some d => negb (Js.truthy_string d)
  | None => true
  end.

(** [analyzeDocumentationNeeds(files, apis, components)] *)
Definition analyzeDocumentationNeeds (files : list string) (apis : list APIDefinition)
           (components : list Component) : list DocumentationNeed :=
  let hasReadme := existsb (fun f => Js.includes (Js.toLowerCase f) "readme") files in
  let needs := if negb hasReadme then [readme_need] else [] in
  fold_left
    (fun needs api =>
       if lacks_description api then
         needs ++ [{| need_type := need_missing; need_file := api_file api;
                      item := api_name api; priority := medium;
                      suggestion := "Add API documentation for " ++ api_name api |}]
       else needs)%list
    apis needs.

(** [generateNavigation(structure)] *)
Definition generateNavigation (structure : ProjectStructure) : list NavigationEntry :=
  ([Group "Getting Started" [Page "introduction"; Page "quickstart"; Page "installation"];
    Group "API Reference"
          [Page "api/overview"; Page "api/authentication"; Page "api/endpoints"]]
   ++ (if (0 <? length (frameworks structure))%nat then
         [Group "Guides"
                [Page "guides/overview"; Page "guides/examples";
                 Page "guides/best-practices"]]
       else []))%list.

(** [a || b] on optional strings *)
Definition or_else (a : option string) (b : string) : string :=
  match a with
  | Some s => if Js.truthy_string s then s else b
  | None => b
  end.

(** [extractMetadata(rootPath)] *)
Definition extractMetadata (w : World) (rootPath : string) : result ProjectMetadata :=
  let metadata :=
    {| md_name := Path.basename rootPath ""; version := None;
       md_description := None; repository := None; author := None |} in
  let packageJsonPath := Path.join [rootPath; "package.json"] in
  metadata ←
    (if Fs.existsSync w packageJsonPath then
       pkg ← Fs.readJson w packageJsonPath;
       Ok {| md_name := or_else (pkg_name pkg) (md_name metadata);
             version := pkg_version pkg;
             md_description := pkg_description pkg;
             repository :=
               match pkg_repository_url pkg with
               | Some u => if Js.truthy_string u then Some u else pkg_repository pkg
               | None => pkg_repository pkg
               end;
             author := pkg_author pkg |}
     else Ok metadata);
  let pyprojectPath := Path.join [rootPath; "pyproject.toml"] in
  if Fs.existsSync w pyprojectPath then
    Ok {| md_name := Path.basename rootPath ""; version := version metadata;
          md_description := md_description metadata;
          repository := repository metadata; author := author metadata |}
  else Ok metadata.

(** [analyze(rootPath, options)] *)
Definition analyze (w : World) (rootPath : string) (options : AnalysisOptions)
  : result CodebaseAnalysis :=
  let excludes := (defaultExcludes ++ default [] (excludePatterns options))%list in
  let files := discoverFiles w rootPath (includePatterns options) excludes in
  structure ← buildStructure w rootPath files;
  let apis := extractAPIs files (depth options) in
  let components := extractComponents files in
  let documentationNeeds := analyzeDocumentationNeeds files apis components in
  let suggestedNavigation := generateNavigation structure in
  metadata ← extractMetadata w rootPath;
  Ok {| structure := structure; apis := apis; components := components;
        documentation_needs := documentationNeeds;
        suggested_navigation := suggestedNavigation;
        metadata := metadata |}.

(** The object [syncWithSource] resolves to. *)
Record SyncResult : Type := {
  sr_status : Status;
  sr_outdated : list string;
  updated : list string;
  suggestions : list string
}.

(** [syncWithSource(docsPath, sourcePath, options)] *)
Definition syncWithSource (w : World) (docsPath sourcePath : string) (autoUpdate : bool)
  : result SyncResult :=
  Ok {| sr_status := synced; sr_outdated := []; updated := []; suggestions := [] |}.

End CodebaseAnalyzer.

(** ** [src/analyzers/codebase-analyzer.ts]: class [DocumentationValidator] *)

Inductive Severity : Type := error | warning.

Module DocumentationValidator.

Record ValidationOptions : Type := {
  strict : bool;
  checkLinks : bool;
  checkCodeExamples : bool
}.

Record ValidationError : Type := {
  e_file : string;
  e_type : string;
  e_message : string;
  severity : Severity
}.

Record ValidationWarning : Type := {
  w_file : string;
  w_type : string;
  w_message : string
}.

Record ValidationSummary : Type := {
  total_files : nat;
  files_with_errors : nat;
  total_errors : nat;
  total_warnings : nat
}.

Record ValidationResult : Type := {
  valid : bool;
  errors : list ValidationError;
  warnings : list ValidationWarning;
  summary : ValidationSummary
}.

(** The text of [`${error}`] for a caught exception. *)
Definition error_text (e : JsError) : string :=
  match e with
  | ENOENT p => "Error: ENOENT: no such file or directory, " ++ p
  | ENOTDIR p => "Error: ENOTDIR: not a directory, " ++ p
  | EISDIR p => "Error: EISDIR: illegal operation on a directory, " ++ p
  | ExecError c => "Error: Command failed: " ++ c
  | SyntaxError m => m
  end.

(** [validateFrontmatter(file, content, options)] *)
Definition validateFrontmatter (w : World) (file content : string)
           (options : ValidationOptions) : list ValidationError :=
  match matter w content with
  | Ok data =>
      ((if negb (truthy (data !! "title")) then
          [{| e_file := file; e_type := "missing_frontmatter";
              e_message := "Missing required frontmatter field: title";
              severity := error |}]
        else [])
       ++
       (if negb (truthy (data !! "description")) && strict options then
          [{| e_file := file; e_type := "missing_frontmatter";
              e_message := "Missing recommended frontmatter field: description";
              severity := warning |}]
        else []))%list
  | Throw e =>
      [{| e_file := file; e_type := "invalid_frontmatter";
          e_message := "Invalid frontmatter: " ++ error_text e;
          severity := error |}]
  end.

Definition not_char (c : ascii) (x : ascii) : bool := negb (Ascii.eqb x c).

(** The regex [\[([^\]]+)\]\(([^)]+)\)] tried at the head of [s]: the
    two groups and the length of the match.  Each group is a longest run
    that stops at the first closing character, so no other split of the
    input can match. *)
Definition link_at (s : string) : option ((string * string) * nat) :=
  match s with
  | String "[" rest =>
      let '(linkText, after) := Js.span (not_char "]") rest in
      if String.eqb linkText "" then None
      else
        match after with
        | String "]" (String "(" rest2) =>
            let '(linkUrl, after2) := Js.span (not_char ")") rest2 in
            if String.eqb linkUrl "" then None
            else
              match after2 with
              | String ")" _ =>
                  Some ((linkText, linkUrl),
                        String.length linkText + String.length linkUrl + 4)
              | _ => None
              end
        | _ => None
        end
  | _ => None
  end.

(** The test [linkUrl.startsWith(/) || !linkUrl.includes(://)] of the source,
    with its two string literals. *)
Definition is_internal (linkUrl : string) : bool :=
  Js.startsWith linkUrl "/" || negb (Js.includes linkUrl "://").

Definition targetPath (file docsPath linkUrl : string) : string :=
  if Js.startsWith linkUrl "/" then Path.join [docsPath; linkUrl]
  else Path.join [docsPath; Path.dirname file; linkUrl].

Definition possiblePaths (target : string) : list string :=
  [target; target ++ ".mdx"; target ++ ".md"; Path.join [target; "index.mdx"]].

(** The outcome of [Promise.any(...).catch(() => false)], as a boolean:
    some candidate path exists. *)
Definition resolves (w : World) (target : string) : bool :=
  existsb (Fs.existsSync w) (possiblePaths target).

Definition broken_link (file linkUrl : string) : ValidationError :=
  {| e_file := file; e_type := "broken_link";
     e_message := "Broken internal link: " ++ linkUrl;
     severity := error |}.

(** One round of the [while] loop of [validateLinks], for the match
    with second group [linkUrl]. *)
Definition check_link (w : World) (file docsPath : string) (linkUrl : string)
  : list ValidationError :=
  if is_internal linkUrl then
    if negb (resolves w (targetPath file docsPath linkUrl))
    then [broken_link file linkUrl]
    else []
  else [].

(** [validateLinks(file, content, docsPath)] *)
Definition validateLinks (w : World) (file content docsPath : string)
  : list ValidationError :=
  flat_map (fun m : string * string => check_link w file docsPath (snd m))
           (Js.exec_all link_at content).

Definition isWordChar (c : ascii) : bool :=
  let n := nat_of_ascii c in
  ((48 <=? n)%nat && (n <=? 57)%nat) || ((65 <=? n)%nat && (n <=? 90)%nat)
  || ((97 <=? n)%nat && (n <=? 122)%nat) || (n =? 95)%nat.

Definition fence : string := "```".

(** The regex [```(\w+)?\n([\s\S]*?)```] tried at the head of [s]: the
    language (absent when the run of word characters is empty), the code
    up to the first closing fence, and the length of the match. *)
Definition code_block_at (s : string) : option ((option string * string) * nat) :=
  match s with
  | String "`" (String "`" (String "`" rest)) =>
      let '(lang, after) := Js.span isWordChar rest in
      match after with
      | String c body =>
          if Ascii.eqb c (ascii_of_nat 10) then
            match Js.before_first fence body with
            | Some code =>
                Some ((if String.eqb lang "" then None else Some lang, code),
                      String.length lang + String.length code + 7)
            | None => None
            end
          else None
      | EmptyString => None
      end
  | _ => None
  end.

(** [validateCodeExamples(file, content)] *)
Definition validateCodeExamples (file content : string) : list ValidationWarning :=
  flat_map
    (fun m : option string * string =>
       ((match fst m with
         | Some _ => []
         | None =>
             [{| w_file := file; w_type := "missing_code_language";
                 w_message := "Code block missing language specifier" |}]
         end)
        ++
        (if (String.length (Js.trim (snd m)) =? 0)%nat then
           [{| w_file := file; w_type := "empty_code_block";
               w_message := "Empty code block found" |}]
         else []))%list)
    (Js.exec_all code_block_at content).

(** The regex [!\[\]\([^)]+\)] tried at the head of [s]. *)
Definition empty_alt_image_at (s : string) : bool :=
  match s with
  | String "!" (String "[" (String "]" (String "(" rest))) =>
      let '(url, after) := Js.span (not_char ")") rest in
      negb (String.eqb url "") &&
      match after with String ")" _ => true | _ => false end
  | _ => false
  end.

(** [imageRegex.test(content)] *)
Fixpoint has_empty_alt_image (s : string) : bool :=
  empty_alt_image_at s ||
  match s with
  | EmptyString => false
  | String _ rest => has_empty_alt_image rest
  end.

(** [checkCommonIssues(file, content)] *)
Definition checkCommonIssues (file content : string) : list ValidationWarning :=
  ((if Js.includes content "http://localhost"
       || Js.includes content "https://docs.example.com"
    then [{| w_file := file; w_type := "absolute_internal_url";
             w_message := "Consider using relative paths for internal links" |}]
    else [])
   ++
   (if has_empty_alt_image content
    then [{| w_file := file; w_type := "missing_alt_text";
             w_message := "Image found without alt text" |}]
    else []))%list.

(** The accumulators of [validate]. *)
Record Acc : Type := {
  acc_errors : list ValidationError;
  acc_warnings : list ValidationWarning;
  filesWithErrors : nat
}.

(** The body of the [for (const file of mdxFiles)] loop. *)
Definition validate_file (w : World) (docsPath : string) (options : ValidationOptions)
           (file : string) (acc : Acc) : result Acc :=
  let filePath := Path.join [docsPath; file] in
  content ← Fs.readFile w filePath;
  let frontmatterErrors := validateFrontmatter w file content options in
  let linkErrors :=
    if checkLinks options then validateLinks w file content docsPath else [] in
  let codeErrors :=
    if checkCodeExamples options then validateCodeExamples file content else [] in
  let commonIssues := checkCommonIssues file content in
  Ok {| acc_errors := acc_errors acc ++ frontmatterErrors ++ linkErrors;
        acc_warnings := acc_warnings acc ++ codeErrors ++ commonIssues;
        filesWithErrors :=
          if (0 <? length frontmatterErrors)%nat
             || (checkLinks options && (0 <? length linkErrors)%nat)
          then S (filesWithErrors acc) else filesWithErrors acc |}.

(** [validate(docsPath, options)] *)
Definition validate (w : World) (docsPath : string) (options : ValidationOptions)
  : result ValidationResult :=
  let mdxFiles := Glob.glob w "**/*.{md,mdx}" docsPath [] in
  acc ← for_of (validate_file w docsPath options) mdxFiles
        {| acc_errors := []; acc_warnings := []; filesWithErrors := 0 |};
  Ok {| valid := (length (acc_errors acc) =? 0)%nat;
        errors := acc_errors acc;
        warnings := acc_warnings acc;
        summary := {| total_files := length mdxFiles;
                      files_with_errors := filesWithErrors acc;
                      total_errors := length (acc_errors acc);
                      total_warnings := length (acc_warnings acc) |} |}.

End DocumentationValidator.

(** ** The drift rule, as a specification

    The specification derives the status of a report from its two lists:
    [incomplete] if any missing entries exist, else [outdated] if any
    outdated entries exist, else [synced]. *)
Definition derived_status {A B} (outdated : list A) (missing : list B) : Status :=
  match missing with
  | _ :: _ => incomplete
  | [] =>
      match outdated with
      | _ :: _ => outdated_status
      | [] => synced
      end
  end.

(** The entry pushed for [docFile] when its source candidate was
    modified at [srcMod] and the file itself at [docMod]. *)
Definition entry_for (w : World) (config : SyncChecker.Config) (docFile : string)
           (docMod srcMod : Q) : SyncChecker.OutdatedEntry :=
  let src := SyncChecker.sourceEquivalent w config docFile in
  {| SyncChecker.doc := Path.relative (cwd w) (SyncChecker.docs config) docFile;
     SyncChecker.o_source := Path.relative (cwd w) (SyncChecker.source config) src;
     SyncChecker.daysBehind := SyncChecker.days_between docMod srcMod;
     SyncChecker.o_priority :=
       SyncChecker.priority_of (SyncChecker.days_between docMod srcMod) |}.

(** What one documentation file contributes to the list of outdated
    entries: nothing when its source candidate is missing; otherwise a
    single entry when the source is at least a full day (86400 seconds)
    ahead of the documentation file, and nothing when it is less than a
    day ahead. *)
Definition outdated_block (w : World) (config : SyncChecker.Config) (docFile : string)
           (block : list SyncChecker.OutdatedEntry) : Prop :=
  let src := SyncChecker.sourceEquivalent w config docFile in
  if Fs.existsSync w src then
    exists docMod srcMod : Q,
      SyncChecker.getLastModified w docFile = Ok docMod /\
      SyncChecker.getLastModified w src = Ok srcMod /\
      ((86400 <= srcMod - docMod)%Q -> block = [entry_for w config docFile docMod srcMod]) /\
      ((srcMod - docMod < 86400)%Q -> block = [])
  else block = [].

(** ** Worlds used as concrete inputs *)

Module Scenario.

Definition newline : string := String (ascii_of_nat 10) EmptyString.

(** A matcher for the patterns the programs use: [**/*.ext],
    [**/*.{md,mdx}] and [**/name/**]. *)
Definition suffix_minimatch (pattern p : string) : bool :=
  if String.eqb pattern "**/*.{md,mdx}" then Js.endsWith p ".md" || Js.endsWith p ".mdx"
  else if Js.startsWith pattern "**/*." then
    Js.endsWith p (String.substring 4 (String.length pattern - 4) pattern)
  else if Js.startsWith pattern "**/" && Js.endsWith pattern "/**" then
    Js.includes ("/" ++ p) (String.substring 2 (String.length pattern - 4) pattern)
  else String.eqb pattern p.

Definition no_frontmatter (content : string) : result (gmap string JsValue) := Ok ∅.

Definition no_json (text : string) : result PackageJson :=
  Throw (SyntaxError "Unexpected end of JSON input").

Definition day : N := 86400.

(** [src/api/users.ts] committed on day 10, [docs/api/users.mdx] on day 2,
    [src/api/orders.ts] undocumented. *)
Definition drift_tree : node :=
  Dir 0 [("repo",
          Dir 0 [("src",
                  Dir 0 [("api", Dir 0 [("users.ts", File 0 "export {}");
                                        ("orders.ts", File 0 "export {}")])]);
                 ("docs",
                  Dir 0 [("api", Dir 0 [("users.mdx", File 0 "# Users")])])])].

Definition drift_history (p : string) : option N :=
  if String.eqb p "docs/api/users.mdx" then Some (2 * day)%N
  else if String.eqb p "src/api/users.ts" then Some (10 * day)%N
  else if String.eqb p "src/api/orders.ts" then Some (10 * day)%N
  else None.

Definition drift_world : World :=
  {| fs_root := drift_tree; cwd := ["repo"];
     git := GitRepository drift_history;
     now := "2024-01-01T00:00:00.000Z";
     minimatch := suffix_minimatch; matter := no_frontmatter; parseJson := no_json |}.

Definition config : SyncChecker.Config :=
  {| SyncChecker.docs := "./docs"; SyncChecker.source := "./src";
     SyncChecker.output := "./sync-report.json" |}.

(** The source was committed one hour after its documentation. *)
Definition hour_tree : node :=
  Dir 0 [("repo",
          Dir 0 [("src", Dir 0 [("guide.ts", File 0 "export {}")]);
                 ("docs", Dir 0 [("guide.md", File 0 "# Guide")])])].



(** A repository in which [docs/new.md] exists, written at
    1700000000 s, and has never been committed. *)
Definition untracked_tree : node :=
  Dir 0 [("repo",
          Dir 0 [("src", Dir 0 []);
                 ("docs", Dir 0 [("new.md", File 1700000000000 "# New")])])].

Definition untracked_world : World :=
  {| fs_root := untracked_tree; cwd := ["repo"];
     git := GitRepository (fun _ => None);
     now := "2024-01-01T00:00:00.000Z";
     minimatch := suffix_minimatch; matter := no_frontmatter; parseJson := no_json |}.

(** The same tree without any repository around it. *)
Definition no_git_world : World :=
  {| fs_root := untracked_tree; cwd := ["repo"];
     git := GitUnavailable;
     now := "2024-01-01T00:00:00.000Z";
     minimatch := suffix_minimatch; matter := no_frontmatter; parseJson := no_json |}.

End Scenario.

Module ScenarioDocs.

Import Scenario.

(** A page whose frontmatter has a title and nothing else. *)
Definition title_only_page : string :=
  "---" ++ newline ++ "title: x" ++ newline ++ "---" ++ newline ++ "Hello.".

(** A page whose frontmatter has a description and no title. *)
Definition description_only_page : string :=
  "---" ++ newline ++ "description: x" ++ newline ++ "---" ++ newline ++ "Hello.".

(** What [gray-matter] reads from the pages above. *)
Definition page_matter (content : string) : result (gmap string JsValue) :=
  if String.eqb content title_only_page then Ok {[ "title" := JString "x" ]}
  else if String.eqb content description_only_page
       then Ok {[ "description" := JString "x" ]}
  else Ok ∅.

Definition frontmatter_tree : node :=
  Dir 0 [("docs", Dir 0 [("page.mdx", File 0 title_only_page)])].

Definition frontmatter_world : World :=
  {| fs_root := frontmatter_tree; cwd := [];
     git := GitUnavailable;
     now := "2024-01-01T00:00:00.000Z";
     minimatch := suffix_minimatch; matter := page_matter; parseJson := no_json |}.




(** A page linking to [./missing-page], before and after the target is
    created. *)
Definition linking_page : string := "See [text](./missing-page).".

Definition before_tree : node :=
  Dir 0 [("docs", Dir 0 [("index.mdx", File 0 linking_page)])].


Definition before_world : World :=
  {| fs_root := before_tree; cwd := [];
     git := GitUnavailable;
     now := "2024-01-01T00:00:00.000Z";
     minimatch := suffix_minimatch; matter := page_matter; parseJson := no_json |}.


(** A small project: two source files, no README. *)
Definition project_tree : node :=
  Dir 0 [("project",
          Dir 0 [("src", Dir 0 [("api.ts", File 0 "export {}");
                                ("Button.tsx", File 0 "export {}")])])].

Definition project_world : World :=
  {| fs_root := project_tree; cwd := ["project"];
     git := GitUnavailable;
     now := "2024-01-01T00:00:00.000Z";
     minimatch := suffix_minimatch; matter := page_matter; parseJson := no_json |}.

(** A project whose documentation and source roots exist and are empty. *)
Definition clean_tree : node :=
  Dir 0 [("project", Dir 0 [("src", Dir 0 []); ("docs", Dir 0 [])])].

Definition clean_world : World :=
  {| fs_root := clean_tree; cwd := ["project"];
     git := GitUnavailable;
     now := "2024-01-01T00:00:00.000Z";
     minimatch := suffix_minimatch; matter := page_matter; parseJson := no_json |}.

Definition standard_options : CodebaseAnalyzer.AnalysisOptions :=
  {| CodebaseAnalyzer.includePatterns := None;
     CodebaseAnalyzer.excludePatterns := None;
     CodebaseAnalyzer.depth := "standard" |}.

End ScenarioDocs.

(** ** Definitions used to state the properties *)

(** The documentation file has a source candidate on disk. *)
Definition has_source_candidate (w : World) (config : SyncChecker.Config)
           (docFile : string) : bool :=
  Fs.existsSync w (SyncChecker.sourceEquivalent w config docFile).




Definition mentions_readme (f : string) : bool :=
  Js.includes (Js.toLowerCase f) "readme".

(** What the validation of one file adds to the errors and to the
    warnings of [validate]. *)
Definition file_errors (w : World) (docsPath : string)
           (options : DocumentationValidator.ValidationOptions)
           (file content : string) : list DocumentationValidator.ValidationError :=
  (DocumentationValidator.validateFrontmatter w file content options
   ++ (if DocumentationValidator.checkLinks options
       then DocumentationValidator.validateLinks w file content docsPath
       else []))%list.

Definition file_warnings (options : DocumentationValidator.ValidationOptions)
           (file content : string) : list DocumentationValidator.ValidationWarning :=
  ((if DocumentationValidator.checkCodeExamples options
    then DocumentationValidator.validateCodeExamples file content
    else [])
   ++ DocumentationValidator.checkCommonIssues file content)%list.

Definition file_block (w : World) (docsPath : string)
           (options : DocumentationValidator.ValidationOptions) (file : string)
           (block : list DocumentationValidator.ValidationError
                    * list DocumentationValidator.ValidationWarning) : Prop :=
  exists content,
    Fs.readFile w (Path.join [docsPath; file]) = Ok content /\
    block = (file_errors w docsPath options file content,
             file_warnings options file content).

Definition title_entry (file : string) : DocumentationValidator.ValidationError :=
  {| DocumentationValidator.e_file := file;
     DocumentationValidator.e_type := "missing_frontmatter";
     DocumentationValidator.e_message := "Missing required frontmatter field: title";
     DocumentationValidator.severity := error |}.

Definition description_entry (file : string) : DocumentationValidator.ValidationError :=
  {| DocumentationValidator.e_file := file;
     DocumentationValidator.e_type := "missing_frontmatter";
     DocumentationValidator.e_message :=
       "Missing recommended frontmatter field: description";
     DocumentationValidator.severity := warning |}.


Definition is_broken (w : World) (file docsPath : string) (m : string * string) : bool :=
  DocumentationValidator.is_internal (snd m)
  && negb (DocumentationValidator.resolves
             w (DocumentationValidator.targetPath file docsPath (snd m))).

Definition lenient : DocumentationValidator.ValidationOptions :=
  {| DocumentationValidator.strict := false;
     DocumentationValidator.checkLinks := true;
     DocumentationValidator.checkCodeExamples := true |}.

Definition strict_options : DocumentationValidator.ValidationOptions :=
  {| DocumentationValidator.strict := true;
     DocumentationValidator.checkLinks := true;
     DocumentationValidator.checkCodeExamples := true |}.

(** Segments and names of paths. *)
Fixpoint no_sep (s : string) : bool :=
  match s with
  | EmptyString => true
  | String c rest => negb (Path.is_sep c) && no_sep rest
  end.

(** A name as [readdir] gives it: not empty, no separator, neither of
    the two dot entries. *)
Definition plain (s : string) : bool :=
  no_sep s && negb (String.eqb s "") && negb (String.eqb s ".")
  && negb (String.eqb s "..").

(** A segment that normalization keeps. *)
Definition kept (s : string) : bool :=
  negb (String.eqb s "") && negb (String.eqb s ".").

Fixpoint distinct (names : list string) : bool :=
  match names with
  | [] => true
  | n :: rest => negb (existsb (String.eqb n) rest) && distinct rest
  end.

(** A tree as a file system presents it: entry names are plain and
    differ within one directory. *)
Fixpoint wf_node (n : node) : bool :=
  match n with
  | File _ _ => true
  | Dir _ entries =>
      forallb plain (map fst entries) && distinct (map fst entries)
      && forallb (fun entry => wf_node (snd entry)) entries
  end.

(** ** The command line of [sync-checker.js] *)

Module SyncCheckerCli.









End SyncCheckerCli.

(** ** Definitions used to state further properties *)

(** A directory that [walk] does not enter. *)
Definition skipped_dir (item : string) : bool :=
  Js.startsWith item "." || String.eqb item "node_modules".

(** The nodes along [names] below [n] are directories that [walk]
    enters, and [item] is a file in the last of them. *)
Fixpoint reachable_file (n : node) (names : list string) (item : string) : bool :=
  match n with
  | File _ _ => false
  | Dir _ entries =>
      match names with
      | [] =>
          match Fs.assoc item entries with
          | Some (File _ _) => true
          | _ => false
          end
      | name :: rest =>
          match Fs.assoc name entries with
          | Some child =>
              Fs.isDirectory child && negb (skipped_dir name)
              && reachable_file child rest item
          | None => false
          end
      end
  end.

(** The entry that the second loop of [analyzeSync] pushes for [apiFile]. *)
Definition missing_entry_for (w : World) (config : SyncChecker.Config) (apiFile : string)
  : SyncChecker.MissingEntry :=
  {| SyncChecker.m_source := Path.relative (cwd w) (SyncChecker.source config) apiFile;
     SyncChecker.expectedDoc :=
       Path.relative (cwd w) (SyncChecker.docs config)
                     (SyncChecker.docEquivalent w config apiFile);
     SyncChecker.m_priority := if Js.includes apiFile "/api/" then high else medium |}.

(** The source file is API-like and its documentation file is absent. *)
Definition lacks_doc (w : World) (config : SyncChecker.Config) (apiFile : string) : bool :=
  SyncChecker.is_api_file apiFile
  && negb (Fs.existsSync w (SyncChecker.docEquivalent w config apiFile)).

Definition update_recommendation (outdated : list SyncChecker.OutdatedEntry)
  : SyncChecker.Recommendation :=
  {| SyncChecker.r_type := "update";
     SyncChecker.message :=
       "Update " ++ SyncChecker.count_text (length outdated)
       ++ " outdated documentation file(s)";
     SyncChecker.files := map SyncChecker.doc (firstn 5 outdated) |}.

Definition create_recommendation (missing : list SyncChecker.MissingEntry)
  : SyncChecker.Recommendation :=
  {| SyncChecker.r_type := "create";
     SyncChecker.message :=
       "Create documentation for " ++ SyncChecker.count_text (length missing)
       ++ " undocumented file(s)";
     SyncChecker.files := map SyncChecker.expectedDoc (firstn 5 missing) |}.

(** The dependency that stands for each framework in [buildStructure]. *)
Definition framework_table : list (string * string) :=
  [("react", "React"); ("next", "Next.js"); ("vue", "Vue");
   ("express", "Express"); ("fastapi", "FastAPI")].

(** [{ ...pkg.dependencies, ...pkg.devDependencies }[key]]: the entry of
    [devDependencies] when there is one, that of [dependencies]
    otherwise. *)
Definition merged_dependency (pkg : PackageJson) (key : string) : option JsValue :=
  match pkg_devDependencies pkg !! key with
  | Some v => Some v
  | None => pkg_dependencies pkg !! key
  end.

(** The slice bound of [extractAPIs]. *)
Definition api_limit (depth : string) : nat :=
  if String.eqb depth "quick" then 10 else 100.

Definition getting_started : CodebaseAnalyzer.NavigationEntry :=
  CodebaseAnalyzer.Group "Getting Started"
    [CodebaseAnalyzer.Page "introduction"; CodebaseAnalyzer.Page "quickstart";
     CodebaseAnalyzer.Page "installation"].

Definition api_reference : CodebaseAnalyzer.NavigationEntry :=
  CodebaseAnalyzer.Group "API Reference"
    [CodebaseAnalyzer.Page "api/overview"; CodebaseAnalyzer.Page "api/authentication";
     CodebaseAnalyzer.Page "api/endpoints"].

Definition guides : CodebaseAnalyzer.NavigationEntry :=
  CodebaseAnalyzer.Group "Guides"
    [CodebaseAnalyzer.Page "guides/overview"; CodebaseAnalyzer.Page "guides/examples";
     CodebaseAnalyzer.Page "guides/best-practices"].

(** Projects with a package manifest. *)
Module ScenarioManifest.

Import Scenario.

Definition react_manifest_text : string := "{ name: web-app, dependencies: { react } }".

Definition react_manifest : PackageJson :=
  {| pkg_name := Some "web-app"; pkg_version := Some "1.0.0";
     pkg_description := None; pkg_repository_url := None; pkg_repository := None;
     pkg_author := None;
     pkg_dependencies := {[ "react" := JString "^18.0.0" ]};
     pkg_devDependencies := ∅ |}.

(** [JSON.parse] on the manifests of the projects below; the text of
    the second one is cut short. *)
Definition manifest_json (text : string) : result PackageJson :=
  if String.eqb text react_manifest_text then Ok react_manifest
  else Throw (SyntaxError "Unexpected end of JSON input").

Definition react_tree : node :=
  Dir 0 [("app", Dir 0 [("package.json", File 0 react_manifest_text);
                        ("index.ts", File 0 "export {}")])].

Definition react_world : World :=
  {| fs_root := react_tree; cwd := [];
     git := GitUnavailable;
     now := "2024-01-01T00:00:00.000Z";
     minimatch := suffix_minimatch; matter := no_frontmatter;
     parseJson := manifest_json |}.



(** A project with both a [package.json] and a [pyproject.toml]. *)
Definition mixed_tree : node :=
  Dir 0 [("app", Dir 0 [("package.json", File 0 react_manifest_text);
                        ("pyproject.toml", File 0 "[project]");
                        ("main.py", File 0 "pass")])].

Definition mixed_world : World :=
  {| fs_root := mixed_tree; cwd := [];
     git := GitUnavailable;
     now := "2024-01-01T00:00:00.000Z";
     minimatch := suffix_minimatch; matter := no_frontmatter;
     parseJson := manifest_json |}.

End ScenarioManifest.

(** The character [c] does not occur in [s]. *)
Fixpoint lacks (c : ascii) (s : string) : bool :=
  match s with
  | EmptyString => true
  | String x rest => negb (Ascii.eqb x c) && lacks c rest
  end.

(** Every character of [s] is a word character, [\w]. *)
Fixpoint all_word (s : string) : bool :=
  match s with
  | EmptyString => true
  | String x rest => DocumentationValidator.isWordChar x && all_word rest
  end.

Definition line_feed : string := String (ascii_of_nat 10) EmptyString.

Definition backtick : ascii := ascii_of_nat 96.

(** The warnings of [validateCodeExamples] for one code block. *)
Definition block_warnings (file lang code : string)
  : list DocumentationValidator.ValidationWarning :=
  ((if String.eqb lang "" then
      [{| DocumentationValidator.w_file := file;
          DocumentationValidator.w_type := "missing_code_language";
          DocumentationValidator.w_message := "Code block missing language specifier" |}]
    else [])
   ++
   (if (String.length (Js.trim code) =? 0)%nat then
      [{| DocumentationValidator.w_file := file;
          DocumentationValidator.w_type := "empty_code_block";
          DocumentationValidator.w_message := "Empty code block found" |}]
    else []))%list.


Definition missing_alt_text_warning (file : string)
  : DocumentationValidator.ValidationWarning :=
  {| DocumentationValidator.w_file := file;
     DocumentationValidator.w_type := "missing_alt_text";
     DocumentationValidator.w_message := "Image found without alt text" |}.

(** The pages matched by [validate] can be read. *)
Definition all_readable (w : World) (docsPath : string) : bool :=
  forallb (fun file => is_ok (Fs.readFile w (Path.join [docsPath; file])))
          (Glob.glob w "**/*.{md,mdx}" docsPath []).

(** Documentation trees for the validator. *)
Module ScenarioValidation.

Import Scenario.

(** A page whose frontmatter block is not valid YAML. *)
Definition unparsable_page : string :=
  "---" ++ newline ++ "title: [" ++ newline ++ "---" ++ newline ++ "See [a](b).".

Definition yaml_matter (content : string) : result (gmap string JsValue) :=
  if String.eqb content unparsable_page
  then Throw (SyntaxError "YAMLException: unexpected end of the stream")
  else Ok {[ "title" := JString "x" ]}.



(** A documentation root with a directory whose name ends in [.md]. *)
Definition directory_match_tree : node :=
  Dir 0 [("docs", Dir 0 [("page.md", File 0 "Hello.");
                         ("notes.md", Dir 0 [])])].

Definition directory_match_world : World :=
  {| fs_root := directory_match_tree; cwd := [];
     git := GitUnavailable;
     now := "2024-01-01T00:00:00.000Z";
     minimatch := suffix_minimatch; matter := yaml_matter; parseJson := no_json |}.

Definition no_checks : DocumentationValidator.ValidationOptions :=
  {| DocumentationValidator.strict := false;
     DocumentationValidator.checkLinks := false;
     DocumentationValidator.checkCodeExamples := false |}.

End ScenarioValidation.

(** * Properties *)

(** ** General lemmas *)

Lemma bind_Ok {A B} (m : result A) (f : A -> result B) (b : B) :
  (m ≫= f) = Ok b -> exists a, m = Ok a /\ f a = Ok b.
Proof. destruct m as [a|e]; simpl; intros H; [eauto | discriminate]. Qed.

Lemma Forall2_In_r {A B} (R : A -> B -> Prop) (l : list A) (l' : list B) (b : B) :
  Forall2 R l l' -> In b l' -> exists a, In a l /\ R a b.
Proof.
  induction 1 as [|a b' l l' HR _ IH]; simpl; [tauto|].
  intros [->|Hin]; [eauto|].
  destruct (IH Hin) as (a' & Ha & HR'). eauto.
Qed.

Lemma Forall2_In_l {A B} (R : A -> B -> Prop) (l : list A) (l' : list B) (a : A) :
  Forall2 R l l' -> In a l -> exists b, In b l' /\ R a b.
Proof.
  induction 1 as [|a' b l l' HR _ IH]; simpl; [tauto|].
  intros [->|Hin]; [eauto|].
  destruct (IH Hin) as (b' & Hb & HR'). eauto.
Qed.

Lemma In_firstn {A} (x : A) n (l : list A) : In x (firstn n l) -> In x l.
Proof.
  revert l. induction n as [|n IH]; intros [|y l]; simpl; try tauto.
  intros [->|H]; auto.
Qed.

(** ** What git prints is what [parseInt] reads *)

Section Decimal.
Import Js.











End Decimal.

(** ** Paths and trees *)

Section PathLemmas.
Import Path.

Lemma split_never_nil sep s : Js.split sep s <> [].
Proof.
  destruct s as [|c s]; simpl; [discriminate|].
  destruct (Ascii.eqb c sep); [discriminate|].
  destruct (Js.split sep s); discriminate.
Qed.

Lemma split_sep_cons s : Js.split sep (String sep s) = EmptyString :: Js.split sep s.
Proof. reflexivity. Qed.

Lemma append_nil_l (t : string) : "" ++ t = t.
Proof. reflexivity. Qed.

Lemma append_cons (c : ascii) (s t : string) : String c s ++ t = String c (s ++ t).
Proof. reflexivity. Qed.

Lemma append_empty_r s : s ++ "" = s.
Proof. induction s as [|c s IH]; [reflexivity | now rewrite append_cons, IH]. Qed.

Lemma append_assoc (a b c : string) : (a ++ b) ++ c = a ++ (b ++ c).
Proof.
  induction a as [|x a IH]; [reflexivity | now rewrite !append_cons, IH].
Qed.

Lemma split_no_sep_app s t :
  no_sep s = true ->
  Js.split sep (s ++ t)
  = match Js.split sep t with
    | h :: tl => (s ++ h) :: tl
    | [] => [s]
    end.
Proof.
  induction s as [|c s IH]; intros Hs.
  - rewrite append_nil_l.
    destruct (Js.split sep t) eqn:E; [now apply split_never_nil in E | reflexivity].
  - simpl in Hs. apply andb_prop in Hs as [Hc Hs].
    unfold is_sep in Hc. apply negb_true_iff in Hc.
    rewrite append_cons. simpl. rewrite Hc.
    rewrite (IH Hs). destruct (Js.split sep t); reflexivity.
Qed.

Lemma split_plain s : no_sep s = true -> Js.split sep s = [s].
Proof.
  intros Hs. rewrite <- (append_empty_r s) at 1.
  rewrite (split_no_sep_app s "" Hs). simpl. now rewrite append_empty_r.
Qed.

Lemma split_segments_no_sep s : Forall (fun seg => no_sep seg = true) (Js.split sep s).
Proof.
  induction s as [|c s IH]; simpl; [repeat constructor|].
  destruct (Ascii.eqb c sep) eqn:Hc; [constructor; [reflexivity | exact IH]|].
  destruct (Js.split sep s) as [|seg segs]; [repeat constructor; simpl|].
  - unfold is_sep. now rewrite Hc.
  - inversion IH; subst. constructor; [simpl|assumption].
    unfold is_sep. rewrite Hc. simpl. assumption.
Qed.

(** Splitting what [join] glued gives the segments back; a trailing
    separator adds one empty segment. *)
Lemma split_join segs :
  Forall (fun seg => no_sep seg = true) segs ->
  segs <> [] ->
  Js.split sep (Js.join "/" segs) = segs /\
  Js.split sep (Js.join "/" segs ++ "/") = (segs ++ [""])%list.
Proof.
  induction segs as [|s segs IH]; intros Hall Hne; [congruence|].
  inversion Hall as [|? ? Hs Hrest]; subst.
  destruct segs as [|s' segs'].
  - simpl. split; [now apply split_plain|].
    rewrite (split_no_sep_app s "/" Hs). simpl. now rewrite append_empty_r.
  - destruct (IH Hrest ltac:(discriminate)) as [IH1 IH2].
    change (Js.join "/" (s :: s' :: segs')) with (s ++ "/" ++ Js.join "/" (s' :: segs')).
    split.
    + rewrite (split_no_sep_app _ _ Hs).
      change ("/" ++ Js.join "/" (s' :: segs'))
        with (String sep (Js.join "/" (s' :: segs'))).
      rewrite split_sep_cons, append_empty_r, IH1. reflexivity.
    + rewrite append_assoc. rewrite (split_no_sep_app _ _ Hs).
      change (("/" ++ Js.join "/" (s' :: segs')) ++ "/")
        with (String sep (Js.join "/" (s' :: segs') ++ "/")).
      rewrite split_sep_cons, append_empty_r, IH2. reflexivity.
Qed.

Lemma step_skip b st s :
  kept s = false -> normalize_step b st s = st.
Proof.
  unfold kept, normalize_step. intros H.
  apply andb_false_iff in H as [H|H]; apply negb_false_iff in H; rewrite H;
    [reflexivity | now rewrite orb_true_r].
Qed.

Lemma step_push b st s :
  kept s = true -> is_dotdot s = false -> normalize_step b st s = (st ++ [s])%list.
Proof.
  unfold kept, normalize_step. intros H Hd.
  apply andb_prop in H as [H1 H2].
  apply negb_true_iff in H1. apply negb_true_iff in H2.
  now rewrite H1, H2, Hd.
Qed.

Lemma step_dotdot b st s :
  is_dotdot s = true ->
  normalize_step b st s
  = match last st with
    | Some top => if is_dotdot top then (st ++ [s])%list else removelast st
    | None => if b then [s] else []
    end.
Proof.
  unfold normalize_step. intros Hd.
  unfold is_dotdot in Hd. apply String.eqb_eq in Hd. subst s. reflexivity.
Qed.

Lemma dotdot_kept s : is_dotdot s = true -> kept s = true.
Proof. unfold is_dotdot. intros H. apply String.eqb_eq in H. now subst. Qed.

Lemma Forall_removelast {A} (P : A -> Prop) (l : list A) :
  Forall P l -> Forall P (removelast l).
Proof.
  induction 1 as [|x l Hx Hl IH]; simpl; [constructor|].
  destruct l; [constructor | constructor; assumption].
Qed.

Lemma step_keeps_kept b st s :
  Forall (fun x => kept x = true) st ->
  Forall (fun x => kept x = true) (normalize_step b st s).
Proof.
  intros Hst.
  destruct (kept s) eqn:Hk; [|now rewrite step_skip].
  destruct (is_dotdot s) eqn:Hd.
  - rewrite (step_dotdot _ _ _ Hd).
    destruct (last st) as [top|].
    + destruct (is_dotdot top).
      * apply Forall_app. split; [assumption | repeat constructor; assumption].
      * now apply Forall_removelast.
    + destruct b; repeat constructor; assumption.
  - rewrite (step_push _ _ _ Hk Hd).
    apply Forall_app. split; [assumption | repeat constructor; assumption].
Qed.

Lemma step_keeps_no_sep b st s :
  no_sep s = true ->
  Forall (fun x => no_sep x = true) st ->
  Forall (fun x => no_sep x = true) (normalize_step b st s).
Proof.
  intros Hs Hst.
  destruct (kept s) eqn:Hk; [|now rewrite step_skip].
  destruct (is_dotdot s) eqn:Hd.
  - rewrite (step_dotdot _ _ _ Hd).
    destruct (last st) as [top|].
    + destruct (is_dotdot top).
      * apply Forall_app. split; [assumption | repeat constructor; assumption].
      * now apply Forall_removelast.
    + destruct b; repeat constructor; assumption.
  - rewrite (step_push _ _ _ Hk Hd).
    apply Forall_app. split; [assumption | repeat constructor; assumption].
Qed.

Lemma fold_keeps b segs : forall st,
  Forall (fun x => no_sep x = true) segs ->
  Forall (fun x => kept x = true) st ->
  Forall (fun x => no_sep x = true) st ->
  Forall (fun x => kept x = true) (fold_left (normalize_step b) segs st) /\
  Forall (fun x => no_sep x = true) (fold_left (normalize_step b) segs st).
Proof.
  induction segs as [|s segs IH]; intros st Hsegs Hk Hn; simpl; [auto|].
  inversion Hsegs; subst.
  apply IH; [assumption | now apply step_keeps_kept | now apply step_keeps_no_sep].
Qed.

Lemma last_snoc_some {A} (l : list A) (x : A) : last (l ++ [x]) = Some x.
Proof. apply last_snoc. Qed.

(** Normalizing first and resolving afterwards is resolving. *)
Lemma fold_normalized b segs : forall st,
  (b = false -> st = []) ->
  Forall (fun x => no_sep x = true) segs ->
  fold_left (normalize_step false) (normalizeSegments b segs) st
  = fold_left (normalize_step false) segs st.
Proof.
  induction segs as [|s segs IH] using rev_ind; intros st Hst Hsegs; [reflexivity|].
  apply Forall_app in Hsegs as [Hsegs Hs]. inversion Hs as [|? ? Hs' _]; subst.
  unfold normalizeSegments in *. rewrite !fold_left_app. simpl.
  rewrite <- (IH st Hst Hsegs).
  set (X := fold_left (normalize_step b) segs []).
  destruct (fold_keeps b segs [] Hsegs ltac:(constructor) ltac:(constructor))
    as [HXk _]. fold X in HXk.
  destruct (kept s) eqn:Hk; [|now rewrite !step_skip].
  destruct (is_dotdot s) eqn:Hd.
  - rewrite (step_dotdot b X s Hd).
    destruct X as [|top X' _] using rev_ind.
    + simpl. destruct b; simpl; [reflexivity|].
      rewrite (Hst eq_refl). now rewrite (step_dotdot false [] s Hd).
    + rewrite last_snoc_some.
      destruct (is_dotdot top) eqn:Htop.
      * now rewrite fold_left_app.
      * rewrite removelast_last. rewrite fold_left_app. simpl.
        apply Forall_app in HXk as [_ Htopk]. inversion Htopk as [|? ? Htopk' _]; subst.
        rewrite (step_push false _ top Htopk' Htop).
        rewrite (step_dotdot false _ s Hd), last_snoc_some, Htop.
        now rewrite removelast_last.
  - rewrite (step_push b X s Hk Hd). now rewrite fold_left_app.
Qed.

Lemma join_kept_nonempty segs :
  Forall (fun x => kept x = true) segs -> segs <> [] -> Js.join "/" segs <> "".
Proof.
  destruct segs as [|s segs]; [congruence|]. intros Hall _.
  inversion Hall as [|? ? Hs _]; subst.
  destruct s as [|c s]; [discriminate Hs|].
  destruct segs; simpl; discriminate.
Qed.

Lemma isAbsolute_cons c rest : isAbsolute (String c rest) = is_sep c.
Proof.
  unfold isAbsolute, Js.startsWith, is_sep.
  change (String.prefix "/" (String c rest))
    with (if ascii_dec "/" c then String.prefix "" rest else false).
  destruct (ascii_dec "/" c) as [<-|Hne].
  - now destruct rest.
  - symmetry. apply Ascii.eqb_neq. unfold sep. congruence.
Qed.

Lemma join_relative segs post :
  Forall (fun x => kept x = true) segs ->
  Forall (fun x => no_sep x = true) segs ->
  segs <> [] ->
  isAbsolute (Js.join "/" segs ++ post) = false.
Proof.
  destruct segs as [|s segs]; [congruence|]. intros Hk Hn _.
  inversion Hk as [|? ? Hs _]; subst. inversion Hn as [|? ? Hs' _]; subst.
  destruct s as [|c s]; [discriminate Hs|].
  simpl in Hs'. apply andb_prop in Hs' as [Hc _].
  apply negb_true_iff in Hc.
  assert (E : exists rest, Js.join "/" (String c s :: segs) ++ post = String c rest).
  { destruct segs; simpl; eauto. }
  destruct E as [rest ->]. now rewrite isAbsolute_cons.
Qed.

Lemma fold_skip_tail b segs st :
  fold_left (normalize_step b) (segs ++ [""]) st = fold_left (normalize_step b) segs st.
Proof. rewrite fold_left_app. simpl. now rewrite step_skip. Qed.

(** Resolving a normalized path is resolving the path. *)
Lemma resolve_normalize cwd q :
  q <> "" -> resolve cwd (normalize q) = resolve cwd q.
Proof.
  intros Hq. unfold normalize.
  destruct (String.eqb_spec q ""); [contradiction|].
  set (abs := isAbsolute q).
  set (X := normalizeSegments (negb abs) (Js.split sep q)).
  pose proof (split_segments_no_sep q) as Hsplit.
  destruct (fold_keeps (negb abs) (Js.split sep q) [] Hsplit
              ltac:(constructor) ltac:(constructor)) as [HXk HXn].
  fold (normalizeSegments (negb abs) (Js.split sep q)) in HXk, HXn. fold X in HXk, HXn.
  assert (Hrhs : resolve cwd q
                 = fold_left (normalize_step false) X
                             (fold_left (normalize_step false)
                                        (if abs then [] else cwd) [])).
  { unfold resolve, normalizeSegments. fold abs. rewrite fold_left_app.
    unfold X. symmetry. apply fold_normalized; [|exact Hsplit].
    intros Hb. destruct abs; [reflexivity | discriminate]. }
  rewrite Hrhs. clear Hrhs.
  destruct (String.eqb_spec (Js.join "/" X) "") as [Hbody|Hbody].
  - assert (HX : X = []).
    { destruct X; [reflexivity|]. exfalso.
      now apply (join_kept_nonempty _ HXk). }
    rewrite HX. simpl.
    destruct abs; [reflexivity|].
    destruct (Js.endsWith q "/"); unfold resolve, normalizeSegments;
      rewrite fold_left_app; reflexivity.
  - assert (HX : X <> []) by (intros E; rewrite E in Hbody; now apply Hbody).
    destruct (split_join X HXn HX) as [Hs1 Hs2].
    assert (Hsplit' : forall st,
               fold_left (normalize_step false)
                         (Js.split sep (Js.join "/" X
                                        ++ (if Js.endsWith q "/" then "/" else ""))) st
               = fold_left (normalize_step false) X st).
    { intros st. destruct (Js.endsWith q "/").
      - rewrite Hs2. apply fold_skip_tail.
      - now rewrite append_empty_r, Hs1. }
    destruct abs.
    + unfold resolve, normalizeSegments.
      change ("/" ++ Js.join "/" X ++ (if Js.endsWith q "/" then "/" else ""))
        with (String sep (Js.join "/" X ++ (if Js.endsWith q "/" then "/" else ""))).
      rewrite isAbsolute_cons. change (is_sep sep) with true. cbv iota.
      rewrite app_nil_l, split_sep_cons.
      change (fold_left (normalize_step false) (?a :: ?l) [])
        with (fold_left (normalize_step false) l (normalize_step false [] a)).
      rewrite (step_skip false [] "" eq_refl). apply Hsplit'.
    + unfold resolve, normalizeSegments. rewrite append_nil_l.
      rewrite (join_relative X _ HXk HXn HX).
      rewrite fold_left_app. apply Hsplit'.
Qed.

Lemma split_app_sep a b :
  Js.split sep (a ++ String sep b) = (Js.split sep a ++ Js.split sep b)%list.
Proof.
  induction a as [|c a IH].
  - reflexivity.
  - rewrite append_cons. simpl. rewrite IH.
    destruct (Ascii.eqb c sep); [reflexivity|].
    destruct (Js.split sep a) eqn:E; [now apply split_never_nil in E | reflexivity].
Qed.

Lemma plain_facts item :
  plain item = true ->
  no_sep item = true /\ kept item = true /\ is_dotdot item = false /\ item <> "".
Proof.
  unfold plain, kept, is_dotdot. intros H.
  apply andb_prop in H as [H H4]. apply andb_prop in H as [H H3].
  apply andb_prop in H as [H1 H2].
  apply negb_true_iff in H4. rewrite H1, H2, H3, H4.
  repeat split. apply negb_true_iff in H2. now apply String.eqb_neq in H2.
Qed.

Lemma plain_relative item : plain item = true -> isAbsolute item = false.
Proof.
  intros H. apply plain_facts in H as (Hn & _ & _ & Hne).
  destruct item as [|c s]; [congruence|].
  simpl in Hn. apply andb_prop in Hn as [Hc _].
  rewrite isAbsolute_cons. now apply negb_true_iff in Hc.
Qed.

(** The path of an entry resolves to the directory followed by the
    name of the entry. *)
Lemma resolve_join_entry cwd d item :
  plain item = true ->
  resolve cwd (join [d; item]) = (resolve cwd d ++ [item])%list.
Proof.
  intros Hp. pose proof (plain_facts item Hp) as (Hn & Hk & Hd & Hne).
  unfold join. simpl.
  destruct (String.eqb_spec item ""); [contradiction|]. simpl.
  destruct (String.eqb_spec d "") as [->|Hdne]; simpl.
  - rewrite (resolve_normalize cwd item Hne).
    unfold resolve, normalizeSegments. rewrite (plain_relative item Hp).
    change (isAbsolute "") with false. cbv iota.
    rewrite (split_plain item Hn). rewrite !fold_left_app. simpl.
    rewrite (step_skip false _ "" eq_refl).
    now apply step_push.
  - rewrite resolve_normalize.
    2:{ destruct d; [congruence | discriminate]. }
    unfold resolve, normalizeSegments.
    assert (Habs : isAbsolute (d ++ "/" ++ item) = isAbsolute d).
    { destruct d; [congruence | now rewrite append_cons, !isAbsolute_cons]. }
    rewrite Habs.
    change (d ++ "/" ++ item) with (d ++ String sep item).
    rewrite split_app_sep, (split_plain item Hn), app_assoc, fold_left_app. simpl.
    now apply step_push.
Qed.
End PathLemmas.

Section Trees.

Lemma node_nested_ind (P : node -> Prop) :
  (forall t c, P (File t c)) ->
  (forall t entries, Forall (fun entry => P (snd entry)) entries -> P (Dir t entries)) ->
  forall n, P n.
Proof.
  intros HF HD. fix IH 1. intros [t c|t entries]; [apply HF|].
  apply HD. induction entries as [|[name child] rest IHrest]; constructor.
  - apply IH.
  - exact IHrest.
Qed.

Lemma assoc_distinct name child entries :
  distinct (map fst entries) = true ->
  In (name, child) entries ->
  Fs.assoc name entries = Some child.
Proof.
  induction entries as [|[n c] rest IH]; simpl; [tauto|].
  intros Hd Hin. apply andb_prop in Hd as [Hfresh Hd].
  destruct Hin as [Heq|Hin].
  - inversion Heq; subst. now rewrite String.eqb_refl.
  - destruct (String.eqb_spec n name) as [->|_]; [|now apply IH].
    exfalso. apply negb_true_iff in Hfresh.
    assert (Hex : existsb (String.eqb name) (map fst rest) = true).
    { apply existsb_exists. exists name. split; [|apply String.eqb_refl].
      apply in_map_iff. exists (name, child). auto. }
    congruence.
Qed.

Lemma lookup_snoc segs : forall n name,
  Fs.lookup n (segs ++ [name])
  = match Fs.lookup n segs with
    | Some (Dir _ entries) => Fs.assoc name entries
    | _ => None
    end.
Proof.
  induction segs as [|s segs IH]; intros n name; simpl.
  - destruct n as [|t entries]; [reflexivity|].
    destruct (Fs.assoc name entries); reflexivity.
  - destruct n as [|t entries]; [reflexivity|].
    destruct (Fs.assoc s entries) as [child|]; [apply IH | reflexivity].
Qed.

Lemma wf_assoc name entries child :
  forallb (fun entry => wf_node (snd entry)) entries = true ->
  Fs.assoc name entries = Some child ->
  wf_node child = true.
Proof.
  induction entries as [|[n c] rest IH]; simpl; [discriminate|].
  intros Hwf Ha. apply andb_prop in Hwf as [Hc Hrest].
  destruct (String.eqb n name); [inversion Ha; now subst | now apply IH].
Qed.

Lemma wf_lookup segs : forall n n',
  wf_node n = true -> Fs.lookup n segs = Some n' -> wf_node n' = true.
Proof.
  induction segs as [|s segs IH]; intros n n' Hwf Hl; simpl in Hl.
  - inversion Hl; now subst.
  - destruct n as [|t entries]; [discriminate|].
    destruct (Fs.assoc s entries) as [child|] eqn:Ha; [|discriminate].
    simpl in Hwf. apply andb_prop in Hwf as [_ Hwf].
    apply (IH child n'); [|exact Hl]. now apply (wf_assoc s entries).
Qed.

(** The child that [walk] passes down is the node that [statSync] of
    the joined path finds. *)
Lemma at_path_entry w directory t entries item child :
  Fs.at_path w directory = Some (Dir t entries) ->
  wf_node (Dir t entries) = true ->
  In (item, child) entries ->
  Fs.at_path w (Path.join [directory; item]) = Some child.
Proof.
  unfold Fs.at_path. intros Hd Hwf Hin. simpl in Hwf.
  apply andb_prop in Hwf as [Hwf _]. apply andb_prop in Hwf as [Hplain Hdist].
  assert (Hp : plain item = true).
  { rewrite forallb_forall in Hplain. apply Hplain.
    apply in_map_iff. exists (item, child). auto. }
  rewrite (resolve_join_entry _ _ _ Hp), lookup_snoc, Hd.
  now apply assoc_distinct.
Qed.

Import SyncChecker.

(** Every path that [walk] collects names a file of the tree. *)
Lemma walk_finds_files w extensions : forall n directory p,
  wf_node n = true ->
  Fs.at_path w directory = Some n ->
  In p (walk extensions directory n) ->
  exists t content, Fs.at_path w p = Some (File t content).
Proof.
  induction n as [t c|t entries IH] using node_nested_ind;
    intros directory p Hwf Hat Hin; [destruct Hin|].
  simpl in Hin. apply in_flat_map in Hin as ([item child] & Hentry & Hin).
  simpl in Hin.
  pose proof (at_path_entry w directory t entries item child Hat Hwf Hentry) as Hchild.
  rewrite List.Forall_forall in IH. specialize (IH _ Hentry). simpl in IH.
  assert (Hwfc : wf_node child = true).
  { simpl in Hwf. apply andb_prop in Hwf as [_ Hwf].
    rewrite forallb_forall in Hwf. apply (Hwf (item, child) Hentry). }
  destruct (Fs.isDirectory child && negb (Js.startsWith item ".")
            && negb (String.eqb item "node_modules")).
  - now apply (IH (Path.join [directory; item]) p).
  - destruct (Fs.isFile child && _) eqn:Hfile; [|destruct Hin].
    destruct Hin as [<-|[]].
    apply andb_prop in Hfile as [Hfile _].
    destruct child as [t' c'|]; [eauto | discriminate].
Qed.

Lemma findFiles_exist w dir extensions found p :
  wf_node (fs_root w) = true ->
  findFiles w dir extensions = Ok found ->
  In p found ->
  Fs.existsSync w p = true.
Proof.
  unfold findFiles. intros Hwf Hf Hin.
  destruct (Fs.at_path w dir) as [[|t entries]|] eqn:Hat; try discriminate.
  inversion Hf; subst found; clear Hf.
  assert (Hwf' : wf_node (Dir t entries) = true).
  { unfold Fs.at_path in Hat. now apply (wf_lookup _ _ _ Hwf Hat). }
  destruct (walk_finds_files w extensions _ _ _ Hwf' Hat Hin) as (t' & c & Hp).
  unfold Fs.existsSync. now rewrite Hp.
Qed.

Lemma getLastModified_returns w p :
  Fs.existsSync w p = true -> exists q, getLastModified w p = Ok q.
Proof.
  intros He. unfold getLastModified, execSync_git_log.
  destruct (git w) as [|lastCommit].
  - simpl. unfold Fs.statSync. unfold Fs.existsSync in He.
    destruct (Fs.at_path w p); [simpl; eauto | discriminate].
  - destruct (lastCommit p); [simpl; eauto|]. rewrite He. simpl. eauto.
Qed.

Lemma check_outdated_returns w config docFile results :
  Fs.existsSync w docFile = true ->
  exists results', check_outdated w config docFile results = Ok results'.
Proof.
  intros He. unfold check_outdated.
  destruct (Fs.existsSync w (sourceEquivalent w config docFile)) eqn:Hs; [|eauto].
  destruct (getLastModified_returns w docFile He) as [docMod ->].
  destruct (getLastModified_returns w _ Hs) as [srcMod ->]. simpl.
  destruct (0 <? days_between docMod srcMod)%Z; eauto.
Qed.

Lemma outdated_loop_returns w config docFiles : forall results,
  Forall (fun docFile => Fs.existsSync w docFile = true) docFiles ->
  exists results', for_of (check_outdated w config) docFiles results = Ok results'.
Proof.
  induction docFiles as [|docFile rest IH]; intros results Hall; simpl; [eauto|].
  inversion Hall as [|? ? He Hrest]; subst.
  destruct (check_outdated_returns w config docFile results He) as [mid ->]. simpl.
  now apply IH.
Qed.

(** Whenever both roots are directories of a well-formed tree,
    [analyzeSync] returns a report: no call in it throws. *)
Theorem analyzeSync_returns w config :
  wf_node (fs_root w) = true ->
  (exists t entries, Fs.at_path w (source config) = Some (Dir t entries)) ->
  (exists t entries, Fs.at_path w (docs config) = Some (Dir t entries)) ->
  exists r, analyzeSync w config = Ok r.
Proof.
  intros Hwf (ts & es & Hs) (td & ed & Hd).
  unfold analyzeSync.
  destruct (findFiles w (source config) source_extensions) as [sourceFiles|e] eqn:Hfs.
  2:{ unfold findFiles in Hfs. rewrite Hs in Hfs. discriminate. }
  destruct (findFiles w (docs config) doc_extensions) as [docFiles|e] eqn:Hfd.
  2:{ unfold findFiles in Hfd. rewrite Hd in Hfd. discriminate. }
  simpl. unfold analyzeFiles.
  destruct (outdated_loop_returns w config docFiles
              (initial_report w sourceFiles docFiles)) as [r1 Hr1].
  { apply List.Forall_forall. intros p Hp. now apply (findFiles_exist w _ _ _ p Hwf Hfd). }
  rewrite Hr1. simpl. eauto.
Qed.
End Trees.

Lemma scenario_trees_well_formed :
  wf_node Scenario.drift_tree = true /\ wf_node Scenario.hour_tree = true /\
  wf_node Scenario.untracked_tree = true.
Proof. repeat split. Qed.

(** ** The last-modified provider *)

Section LastModified.
Import SyncChecker.


(** When the git command fails, the file-system time is used. *)
Lemma getLastModified_git_fails w filePath st :
  git w = GitUnavailable ->
  Fs.statSync w filePath = Ok st ->
  getLastModified w filePath = Ok (Fs.mtimeMs st / 1000)%Q.
Proof.
  intros Hg Hst. unfold getLastModified, execSync_git_log. rewrite Hg. simpl.
  now rewrite Hst.
Qed.

(** An existing file without commits makes the command succeed with no
    output: nothing is thrown, [parseInt] gives [NaN], and the result is
    zero. *)
Lemma getLastModified_untracked w lastCommit filePath :
  git w = GitRepository lastCommit ->
  lastCommit filePath = None ->
  Fs.existsSync w filePath = true ->
  getLastModified w filePath = Ok (inject_Z 0).
Proof.
  intros Hg Ht He. unfold getLastModified, execSync_git_log. rewrite Hg, Ht, He.
  reflexivity.
Qed.

(** C5, at the input where the code departs from it.  The file
    [docs/new.md] exists, was written at 1700000000 s and is untracked in
    a repository: the git command succeeds and prints nothing, so
    [getLastModified] returns 0, the epoch, and not the file-system time
    1700000000, which the same file gets where git is unavailable. *)
Theorem untracked_file_gets_epoch_not_mtime :
  Fs.statSync Scenario.untracked_world "docs/new.md"
  = Ok (File 1700000000000 "# New") /\
  execSync_git_log Scenario.untracked_world "docs/new.md" = Ok EmptyString /\
  getLastModified Scenario.untracked_world "docs/new.md" = Ok (inject_Z 0) /\
  getLastModified Scenario.no_git_world "docs/new.md"
  = Ok (1700000000000 / 1000)%Q /\
  ~ (inject_Z 0 == 1700000000000 / 1000)%Q.
Proof.
  repeat split; try reflexivity. intros H. discriminate H.
Qed.

End LastModified.

(** ** Drift detection *)

Section Drift.
Import SyncChecker.

Lemma days_between_floor (docMod srcMod : Q) :
  (inject_Z (days_between docMod srcMod) * 86400 <= srcMod - docMod)%Q /\
  (srcMod - docMod < inject_Z (days_between docMod srcMod + 1) * 86400)%Q.
Proof.
  unfold days_between.
  set (x := ((srcMod - docMod) / 86400)%Q).
  assert (Hx : (srcMod - docMod == x * 86400)%Q).
  { unfold x. field. }
  pose proof (Qfloor_le x) as Hlo.
  pose proof (Qlt_floor x) as Hhi.
  rewrite Hx. split; lra.
Qed.

Lemma days_between_positive (docMod srcMod : Q) :
  (0 <? days_between docMod srcMod)%Z = true <-> (86400 <= srcMod - docMod)%Q.
Proof.
  destruct (days_between_floor docMod srcMod) as [Hlo Hhi].
  rewrite Z.ltb_lt. split.
  - intros Hpos.
    assert (H1 : (inject_Z 1 <= inject_Z (days_between docMod srcMod))%Q).
    { rewrite <- Zle_Qle. lia. }
    change (inject_Z 1) with 1%Q in H1. lra.
  - intros Hday.
    assert (H1 : (inject_Z 0 < inject_Z (days_between docMod srcMod + 1))%Q).
    { change (inject_Z 0) with 0%Q. lra. }
    rewrite <- Zlt_Qlt in H1.
    assert (days_between docMod srcMod <> 0)%Z.
    { intros E. rewrite E in Hhi. change (inject_Z (0 + 1)) with 1%Q in Hhi. lra. }
    lia.
Qed.

Lemma check_outdated_spec w config docFile results results' :
  check_outdated w config docFile results = Ok results' ->
  exists block,
    outdated results' = (outdated results ++ block)%list /\
    outdated_block w config docFile block /\
    status results' = status results /\
    missing results' = missing results /\
    outdatedDocs (summary results') = (outdatedDocs (summary results) + length block)%nat /\
    (upToDate (summary results') + outdatedDocs (summary results')
     = upToDate (summary results) + outdatedDocs (summary results)
       + (if has_source_candidate w config docFile then 1 else 0))%nat.
Proof.
  unfold check_outdated, outdated_block, has_source_candidate.
  destruct (Fs.existsSync w (sourceEquivalent w config docFile)).
  - intros H.
    apply bind_Ok in H as (docMod & Hdoc & H).
    apply bind_Ok in H as (srcMod & Hsrc & H).
    destruct (0 <? days_between docMod srcMod)%Z eqn:Hd; inversion H; subst; clear H; simpl.
    + eexists; split; [reflexivity|]. split; [|simpl; repeat split; lia].
      exists docMod, srcMod. repeat split; auto.
      intros Hlt. apply days_between_positive in Hd. lra.
    + exists []. rewrite app_nil_r. split; [reflexivity|].
      split; [|simpl; repeat split; lia].
      exists docMod, srcMod. repeat split; auto.
      intros Hge. apply days_between_positive in Hge. congruence.
  - intros H. inversion H; subst. exists []. rewrite app_nil_r. simpl.
    repeat split; lia.
Qed.

Lemma outdated_loop_spec w config docFiles : forall results results',
  for_of (check_outdated w config) docFiles results = Ok results' ->
  exists blocks,
    outdated results' = (outdated results ++ concat blocks)%list /\
    Forall2 (outdated_block w config) docFiles blocks /\
    status results' = status results /\
    missing results' = missing results /\
    outdatedDocs (summary results')
    = (outdatedDocs (summary results) + length (concat blocks))%nat /\
    (upToDate (summary results') + outdatedDocs (summary results')
     = upToDate (summary results) + outdatedDocs (summary results)
       + length (List.filter (has_source_candidate w config) docFiles))%nat.
Proof.
  induction docFiles as [|docFile rest IH]; intros results results' H; simpl in H.
  - inversion H; subst. exists []. simpl. rewrite app_nil_r. repeat split; auto; lia.
  - apply bind_Ok in H as (mid & Hstep & Hrest).
    apply check_outdated_spec in Hstep as (block & Ho & Hb & Hs & Hm & Hn & Hu).
    apply IH in Hrest as (blocks & Ho' & Hbs & Hs' & Hm' & Hn' & Hu').
    exists (block :: blocks). simpl.
    rewrite Ho', Ho, <- app_assoc, length_app.
    repeat split; auto; try congruence; try lia.
    destruct (has_source_candidate w config docFile); simpl; lia.
Qed.

Lemma check_missing_keeps w config results apiFile :
  outdated (check_missing w config results apiFile) = outdated results /\
  status (check_missing w config results apiFile) = status results /\
  outdatedDocs (summary (check_missing w config results apiFile))
  = outdatedDocs (summary results) /\
  upToDate (summary (check_missing w config results apiFile))
  = upToDate (summary results).
Proof. unfold check_missing. destruct (negb _); auto. Qed.

Lemma missing_loop_keeps w config apiFiles : forall results,
  let results' := fold_left (check_missing w config) apiFiles results in
  outdated results' = outdated results /\
  status results' = status results /\
  outdatedDocs (summary results') = outdatedDocs (summary results) /\
  upToDate (summary results') = upToDate (summary results).
Proof.
  induction apiFiles as [|f rest IH]; intros results; simpl; auto.
  destruct (IH (check_missing w config results f)) as (Ho & Hs & Hn & Hu).
  destruct (check_missing_keeps w config results f) as (Ho' & Hs' & Hn' & Hu').
  repeat split; congruence.
Qed.

Lemma recommend_keeps results :
  outdated (recommend_create (recommend_update results)) = outdated results /\
  missing (recommend_create (recommend_update results)) = missing results /\
  summary (recommend_create (recommend_update results)) = summary results.
Proof.
  unfold recommend_create, recommend_update.
  destruct (0 <? length (outdated results))%nat; simpl;
    destruct (0 <? length (missing results))%nat; simpl; auto.
Qed.

Lemma recommend_status results :
  status results = synced ->
  status (recommend_create (recommend_update results))
  = derived_status (outdated results) (missing results).
Proof.
  unfold recommend_create, recommend_update, derived_status. intros Hs.
  destruct (outdated results) eqn:Eo, (missing results) eqn:Em; simpl;
    rewrite ?Eo, ?Em; simpl; auto.
Qed.

Lemma analyzeFiles_spec w config sourceFiles docFiles r :
  analyzeFiles w config sourceFiles docFiles = Ok r ->
  status r = derived_status (outdated r) (missing r) /\
  (exists blocks,
    outdated r = concat blocks /\ Forall2 (outdated_block w config) docFiles blocks) /\
  outdatedDocs (summary r) = length (outdated r) /\
  (upToDate (summary r) + outdatedDocs (summary r)
   = length (List.filter (has_source_candidate w config) docFiles))%nat.
Proof.
  unfold analyzeFiles. intros H.
  apply bind_Ok in H as (r1 & Hloop & H). inversion H; subst; clear H.
  apply outdated_loop_spec in Hloop as (blocks & Ho & Hbs & Hs & Hm & Hn & Hu).
  simpl in Ho, Hs, Hm, Hn, Hu.
  set (r2 := fold_left _ _ r1).
  destruct (missing_loop_keeps w config (List.filter is_api_file sourceFiles) r1)
    as (Ho2 & Hs2 & Hn2 & Hu2).
  fold r2 in Ho2, Hs2, Hn2, Hu2.
  destruct (recommend_keeps r2) as (Ho3 & Hm3 & Hsum).
  split; [|split; [|split]].
  - rewrite recommend_status by congruence. now rewrite Ho3, Hm3.
  - exists blocks. split; [congruence | assumption].
  - rewrite Hsum, Ho3, Ho2, Ho, Hn2. exact Hn.
  - rewrite Hsum, Hn2, Hu2. exact Hu.
Qed.

Lemma analyzeSync_spec w config r :
  analyzeSync w config = Ok r ->
  exists sourceFiles docFiles,
    findFiles w (source config) source_extensions = Ok sourceFiles /\
    findFiles w (docs config) doc_extensions = Ok docFiles /\
    analyzeFiles w config sourceFiles docFiles = Ok r.
Proof.
  unfold analyzeSync. intros H.
  apply bind_Ok in H as (sourceFiles & Hs & H).
  apply bind_Ok in H as (docFiles & Hd & H). eauto.
Qed.

(** C4.  The status of every report of [analyzeSync] is a function of
    its two entry lists: [incomplete] when the missing list is not
    empty, whatever the outdated list holds; otherwise [outdated] when
    the outdated list is not empty; otherwise [synced]. *)
Theorem status_is_derived w config r :
  analyzeSync w config = Ok r ->
  status r = derived_status (outdated r) (missing r) /\
  (missing r <> [] -> status r = incomplete) /\
  (missing r = [] -> outdated r <> [] -> status r = outdated_status) /\
  (missing r = [] -> outdated r = [] -> status r = synced).
Proof.
  intros H. apply analyzeSync_spec in H as (sourceFiles & docFiles & _ & _ & H).
  apply analyzeFiles_spec in H as [Hs _].
  split; [exact Hs|]. rewrite Hs. unfold derived_status.
  destruct (missing r), (outdated r); repeat split; intros; congruence.
Qed.

Lemma status_is_derived_witness :
  exists r, analyzeSync Scenario.drift_world Scenario.config = Ok r /\
            missing r <> [] /\ outdated r <> [] /\ status r = incomplete.
Proof.
  eexists. split; [vm_compute; reflexivity|].
  split; [discriminate|]. split; [discriminate|].
  apply (status_is_derived Scenario.drift_world Scenario.config);
    [vm_compute; reflexivity | discriminate].
Defined.






(** Equal timestamps never give an entry. *)
Lemma equal_timestamps_no_entry w config docFile block docMod srcMod :
  outdated_block w config docFile block ->
  getLastModified w docFile = Ok docMod ->
  getLastModified w (sourceEquivalent w config docFile) = Ok srcMod ->
  (srcMod == docMod)%Q ->
  block = [].
Proof.
  unfold outdated_block. intros Hb Hdoc Hsrc Heq.
  destruct (Fs.existsSync w (sourceEquivalent w config docFile)); [|exact Hb].
  destruct Hb as (docMod' & srcMod' & Hdoc' & Hsrc' & _ & Hlt).
  rewrite Hdoc in Hdoc'. rewrite Hsrc in Hsrc'.
  inversion Hdoc'; inversion Hsrc'; subst.
  apply Hlt. lra.
Qed.

End Drift.

(** ** Missing roots *)

Section MissingRoots.
Import SyncChecker.

(** The script checks both roots before it analyses anything: a missing
    root ends the run with status 1 and an error line, and no report is
    written. *)
Lemma main_missing_docs w config :
  Fs.existsSync w (docs config) = false ->
  main w config
  = {| exitCode := 1;
       stderr := ["Error: Docs path not found: " ++ docs config];
       uncaught := None; written := None |}.
Proof. intros H. unfold main. now rewrite H. Qed.

Lemma main_missing_source w config :
  Fs.existsSync w (docs config) = true ->
  Fs.existsSync w (source config) = false ->
  main w config
  = {| exitCode := 1;
       stderr := ["Error: Source path not found: " ++ source config];
       uncaught := None; written := None |}.
Proof. intros Hd Hs. unfold main. now rewrite Hd, Hs. Qed.

Lemma findFiles_missing_root w dir extensions :
  Fs.existsSync w dir = false -> findFiles w dir extensions = Throw (ENOENT dir).
Proof.
  unfold Fs.existsSync, findFiles. destruct (Fs.at_path w dir); [discriminate | reflexivity].
Qed.

(** Called on its own, [analyzeSync] throws for a missing root and
    produces no report. *)
Lemma analyzeSync_missing_root w config :
  Fs.existsSync w (docs config) = false \/ Fs.existsSync w (source config) = false ->
  is_ok (analyzeSync w config) = false.
Proof.
  intros H. unfold analyzeSync.
  destruct (findFiles w (source config) source_extensions) as [sourceFiles|e] eqn:Hs;
    simpl; [|reflexivity].
  destruct H as [Hd|Hsrc].
  - now rewrite (findFiles_missing_root _ _ _ Hd).
  - rewrite (findFiles_missing_root _ _ _ Hsrc) in Hs. discriminate.
Qed.

(** A report is written only when both roots exist. *)
Lemma main_writes_only_for_existing_roots w config path report :
  written (main w config) = Some (path, report) ->
  Fs.existsSync w (docs config) = true /\ Fs.existsSync w (source config) = true.
Proof.
  unfold main.
  destruct (Fs.existsSync w (docs config)); simpl; [|discriminate].
  destruct (Fs.existsSync w (source config)); simpl; [|discriminate]. auto.
Qed.

(** With both roots in place the report of [analyzeSync] is written to
    the output path, and the exit status is 0 exactly for [synced]. *)
Lemma main_writes_report w config r :
  Fs.existsSync w (docs config) = true ->
  Fs.existsSync w (source config) = true ->
  analyzeSync w config = Ok r ->
  main w config
  = {| exitCode := match status r with synced => 0 | _ => 1 end;
       stderr := []; uncaught := None;
       written := Some (output config, r) |}.
Proof. intros Hd Hs Hr. unfold main. now rewrite Hd, Hs, Hr. Qed.

(** On a well-formed tree whose two roots are directories the script
    always writes a report. *)
Lemma main_always_reports w config :
  wf_node (fs_root w) = true ->
  (exists t entries, Fs.at_path w (source config) = Some (Dir t entries)) ->
  (exists t entries, Fs.at_path w (docs config) = Some (Dir t entries)) ->
  exists r, written (main w config) = Some (output config, r).
Proof.
  intros Hwf Hs Hd.
  destruct (analyzeSync_returns w config Hwf Hs Hd) as [r Hr].
  destruct Hs as (ts & es & Hs). destruct Hd as (td & ed & Hd).
  exists r. rewrite (main_writes_report w config r); [reflexivity | | | exact Hr];
    unfold Fs.existsSync; [now rewrite Hd | now rewrite Hs].
Qed.

End MissingRoots.

Section AnalyzerRoots.
Import CodebaseAnalyzer.

Lemma syncWithSource_constant w docsPath sourcePath autoUpdate :
  syncWithSource w docsPath sourcePath autoUpdate
  = Ok {| sr_status := synced; sr_outdated := []; updated := []; suggestions := [] |}.
Proof. reflexivity. Qed.

(** C1, at the input where the code departs from it.  Neither
    [/nonexistent/docs] nor [/nonexistent/src] exists, and
    [syncWithSource] answers with status [synced] and empty lists, the
    very object it returns for a project whose two roots exist and are
    empty. *)
Theorem syncWithSource_reports_synced_for_missing_roots :
  Fs.existsSync ScenarioDocs.project_world "/nonexistent/docs" = false /\
  Fs.existsSync ScenarioDocs.project_world "/nonexistent/src" = false /\
  syncWithSource ScenarioDocs.project_world "/nonexistent/docs" "/nonexistent/src" false
  = Ok {| sr_status := synced; sr_outdated := []; updated := []; suggestions := [] |} /\
  syncWithSource ScenarioDocs.project_world "/nonexistent/docs" "/nonexistent/src" false
  = syncWithSource ScenarioDocs.clean_world "docs" "src" false.
Proof. repeat split. Qed.

Lemma glob_missing_root w pattern root ignore :
  Fs.existsSync w root = false -> Glob.glob w pattern root ignore = [].
Proof.
  unfold Fs.existsSync, Glob.glob. destruct (Fs.at_path w root); [discriminate | reflexivity].
Qed.

(** [discoverFiles] never looks at the root itself: for a missing root
    every [glob] call is empty, and so is the result. *)
Lemma discoverFiles_missing_root w rootPath includePatterns excludePatterns :
  Fs.existsSync w rootPath = false ->
  discoverFiles w rootPath includePatterns excludePatterns = [].
Proof.
  intros H. unfold discoverFiles.
  assert (Hfold : forall patterns,
             fold_left (fun allFiles pattern =>
                          allFiles ++ Glob.glob w pattern rootPath excludePatterns)%list
                       patterns [] = []).
  { induction patterns as [|p ps IH]; simpl; [reflexivity|].
    rewrite (glob_missing_root _ _ _ _ H). exact IH. }
  now rewrite Hfold.
Qed.

(** C6, at the input where the code departs from it.  The root
    [/nonexistent/path] does not exist; [discoverFiles] returns the empty
    list instead of failing, and [analyze] goes on to return an analysis
    of an empty project, whose only finding is the missing README. *)
Theorem analyze_of_missing_root_returns_empty_analysis :
  Fs.existsSync ScenarioDocs.project_world "/nonexistent/path" = false /\
  discoverFiles ScenarioDocs.project_world "/nonexistent/path" None defaultExcludes = [] /\
  exists r,
    analyze ScenarioDocs.project_world "/nonexistent/path" ScenarioDocs.standard_options
    = Ok r /\
    files (structure r) = [] /\ apis r = [] /\ components r = [] /\
    documentation_needs r = [readme_need].
Proof.
  split; [reflexivity|]. split; [vm_compute; reflexivity|].
  eexists. split; [vm_compute; reflexivity|]. repeat split.
Qed.

End AnalyzerRoots.

(** ** Heuristic extraction *)

Section Extraction.
Import CodebaseAnalyzer.

Lemma extractAPIs_file files depth api :
  In api (extractAPIs files depth) ->
  In (api_file api) files /\
  api_description api = Some ("API from " ++ api_file api).
Proof.
  unfold extractAPIs. intros H.
  apply in_map_iff in H as (file & <- & Hin). simpl.
  apply In_firstn, filter_In in Hin as [Hin _]. auto.
Qed.

Lemma extractComponents_file files c :
  In c (extractComponents files) -> In (c_file c) files.
Proof.
  unfold extractComponents. intros H.
  apply in_map_iff in H as (file & <- & Hin). simpl.
  now apply filter_In in Hin as [Hin _].
Qed.

Lemma analyze_spec w rootPath options r :
  analyze w rootPath options = Ok r ->
  let discovered :=
    discoverFiles w rootPath (includePatterns options)
                  (defaultExcludes ++ default [] (excludePatterns options)) in
  map fn_path (files (structure r)) = discovered /\
  apis r = extractAPIs discovered (depth options) /\
  components r = extractComponents discovered /\
  documentation_needs r
  = analyzeDocumentationNeeds discovered (apis r) (components r).
Proof.
  unfold analyze. intros H.
  apply bind_Ok in H as (st & Hst & H).
  apply bind_Ok in H as (md & Hmd & H).
  inversion H; subst; clear H. simpl.
  unfold buildStructure in Hst.
  apply bind_Ok in Hst as (fw & _ & Hst). inversion Hst; subst; clear Hst. simpl.
  repeat split.
  rewrite map_map. simpl. apply map_id.
Qed.

(** C9.  In every analysis that [analyze] returns, the file of each
    API definition and of each component is one of the files discovered
    in that run, which are also the paths of the file nodes of the
    returned structure. *)
Theorem extracted_entries_reference_discovered_files w rootPath options r :
  analyze w rootPath options = Ok r ->
  let discovered :=
    discoverFiles w rootPath (includePatterns options)
                  (defaultExcludes ++ default [] (excludePatterns options)) in
  map fn_path (files (structure r)) = discovered /\
  (forall api, In api (apis r) -> In (api_file api) discovered) /\
  (forall c, In c (components r) -> In (c_file c) discovered).
Proof.
  intros H. apply analyze_spec in H as (Hf & Ha & Hc & _). cbv zeta.
  split; [exact Hf|]. split.
  - intros api Hin. rewrite Ha in Hin. now apply extractAPIs_file in Hin.
  - intros c Hin. rewrite Hc in Hin. now apply extractComponents_file in Hin.
Qed.

Lemma extracted_entries_reference_discovered_files_witness :
  exists r,
    analyze ScenarioDocs.project_world "src" ScenarioDocs.standard_options = Ok r /\
    map fn_path (files (structure r)) = ["api.ts"; "Button.tsx"] /\
    (forall api, In api (apis r) -> In (api_file api) ["api.ts"; "Button.tsx"]) /\
    (forall c, In c (components r) -> In (c_file c) ["api.ts"; "Button.tsx"]).
Proof.
  eexists. split; [vm_compute; reflexivity|].
  apply (extracted_entries_reference_discovered_files
           ScenarioDocs.project_world "src" ScenarioDocs.standard_options).
  vm_compute. reflexivity.
Defined.

Lemma needs_unchanged_by_described_apis apis : forall needs,
  Forall (fun api => lacks_description api = false) apis ->
  fold_left
    (fun needs api =>
       if lacks_description api then
         needs ++ [{| need_type := need_missing; need_file := api_file api;
                      item := api_name api; priority := medium;
                      suggestion := "Add API documentation for " ++ api_name api |}]
       else needs)%list
    apis needs = needs.
Proof.
  induction apis as [|api rest IH]; intros needs Hall; simpl; [reflexivity|].
  inversion Hall as [|? ? Hapi Hrest]; subst. rewrite Hapi. now apply IH.
Qed.

Lemma extractAPIs_described files depth :
  Forall (fun api => lacks_description api = false) (extractAPIs files depth).
Proof.
  apply List.Forall_forall. intros api Hin.
  apply extractAPIs_file in Hin as [_ Hd].
  unfold lacks_description. rewrite Hd. reflexivity.
Qed.

Lemma needs_of_extracted_apis files depth components :
  analyzeDocumentationNeeds files (extractAPIs files depth) components
  = if existsb mentions_readme files then [] else [readme_need].
Proof.
  unfold analyzeDocumentationNeeds.
  rewrite needs_unchanged_by_described_apis by apply extractAPIs_described.
  fold mentions_readme.
  now destruct (existsb mentions_readme files).
Qed.

(** C10.  Every API definition that [extractAPIs] produces, for any
    file list and depth, carries a non-empty description, so
    [analyzeDocumentationNeeds] adds no medium-priority need for it; in
    every analysis run the list of documentation needs therefore has at
    most one entry, the high-priority missing-README need, present
    exactly when no discovered path contains [readme] in any letter
    case. *)
Theorem only_the_readme_need_is_ever_reported w rootPath options r :
  analyze w rootPath options = Ok r ->
  (forall files depth api, In api (extractAPIs files depth) ->
     exists d, api_description api = Some d /\ d <> EmptyString) /\
  (forall api, In api (apis r) ->
     exists d, api_description api = Some d /\ d <> EmptyString) /\
  (forall need, In need (documentation_needs r) ->
     need = readme_need /\ priority need = high /\ priority need <> medium) /\
  (length (documentation_needs r) <= 1)%nat /\
  (documentation_needs r = [readme_need] <->
   existsb (fun f => Js.includes (Js.toLowerCase f) "readme")
           (map fn_path (files (structure r))) = false) /\
  (documentation_needs r = [] <->
   existsb (fun f => Js.includes (Js.toLowerCase f) "readme")
           (map fn_path (files (structure r))) = true).
Proof.
  intros H. apply analyze_spec in H as (Hf & Ha & Hc & Hn). cbv zeta in *.
  rewrite Ha, needs_of_extracted_apis in Hn. rewrite Hf.
  fold mentions_readme. rewrite Hn.
  split.
  { intros files depth api Hin. apply extractAPIs_file in Hin as [_ Hd].
    eexists. split; [exact Hd | discriminate]. }
  split.
  { intros api Hin. rewrite Ha in Hin. apply extractAPIs_file in Hin as [_ Hd].
    eexists. split; [exact Hd | discriminate]. }
  destruct (existsb mentions_readme _); simpl.
  - split; [intros ? []|]. split; [lia|]. split; split; congruence.
  - split.
    { intros need [<-|[]]. repeat split. discriminate. }
    split; [lia|]. split; split; congruence.
Qed.

Lemma only_the_readme_need_is_ever_reported_witness :
  exists r,
    analyze ScenarioDocs.project_world "src" ScenarioDocs.standard_options = Ok r /\
    documentation_needs r = [readme_need] /\
    (length (documentation_needs r) <= 1)%nat.
Proof.
  eexists. split; [vm_compute; reflexivity|].
  pose proof (only_the_readme_need_is_ever_reported
                ScenarioDocs.project_world "src" ScenarioDocs.standard_options _ eq_refl)
    as (_ & _ & _ & Hlen & Hiff & _).
  split; [|exact Hlen].
  apply Hiff. vm_compute. reflexivity.
Defined.

End Extraction.

(** ** Validation *)

Section Validation.
Import DocumentationValidator.

Lemma validate_file_spec w docsPath options file acc acc' :
  validate_file w docsPath options file acc = Ok acc' ->
  exists block,
    file_block w docsPath options file block /\
    acc_errors acc' = (acc_errors acc ++ fst block)%list /\
    acc_warnings acc' = (acc_warnings acc ++ snd block)%list.
Proof.
  unfold validate_file. intros H.
  apply bind_Ok in H as (content & Hread & H). inversion H; subst; clear H.
  eexists. split; [exists content; split; [exact Hread | reflexivity]|].
  simpl. unfold file_errors, file_warnings. auto.
Qed.

Lemma validate_loop_spec w docsPath options files : forall acc acc',
  for_of (validate_file w docsPath options) files acc = Ok acc' ->
  exists blocks,
    Forall2 (file_block w docsPath options) files blocks /\
    acc_errors acc' = (acc_errors acc ++ concat (map fst blocks))%list /\
    acc_warnings acc' = (acc_warnings acc ++ concat (map snd blocks))%list.
Proof.
  induction files as [|file rest IH]; intros acc acc' H; simpl in H.
  - inversion H; subst. exists []. simpl. rewrite !app_nil_r. auto.
  - apply bind_Ok in H as (mid & Hstep & Hrest).
    apply validate_file_spec in Hstep as (block & Hb & He & Hw).
    apply IH in Hrest as (blocks & Hbs & He' & Hw').
    exists (block :: blocks). simpl.
    rewrite He', He, Hw', Hw, <- !app_assoc. auto.
Qed.

Lemma validate_spec w docsPath options r :
  validate w docsPath options = Ok r ->
  valid r = (length (errors r) =? 0)%nat /\
  exists blocks,
    Forall2 (file_block w docsPath options)
            (Glob.glob w "**/*.{md,mdx}" docsPath []) blocks /\
    errors r = concat (map fst blocks) /\
    warnings r = concat (map snd blocks).
Proof.
  unfold validate. intros H.
  apply bind_Ok in H as (acc & Hloop & H). inversion H; subst; clear H. simpl.
  split; [reflexivity|].
  apply validate_loop_spec in Hloop as (blocks & Hbs & He & Hw).
  exists blocks. auto.
Qed.

Lemma errors_of_file_reported w docsPath options r file content e :
  validate w docsPath options = Ok r ->
  In file (Glob.glob w "**/*.{md,mdx}" docsPath []) ->
  Fs.readFile w (Path.join [docsPath; file]) = Ok content ->
  In e (file_errors w docsPath options file content) ->
  In e (errors r) /\ valid r = false.
Proof.
  intros H Hfile Hread He.
  apply validate_spec in H as (Hv & blocks & Hbs & Herr & _).
  assert (Hin : In e (errors r)).
  { destruct (Forall2_In_l _ _ _ _ Hbs Hfile) as (block & Hblock & content' & Hread' & ->).
    rewrite Hread in Hread'. inversion Hread'; subst content'.
    rewrite Herr. apply in_concat. eexists. split; [|exact He].
    apply in_map_iff. eexists. split; [|exact Hblock]. reflexivity. }
  split; [exact Hin|]. rewrite Hv.
  destruct (errors r); [contradiction | reflexivity].
Qed.

Lemma reported_errors_origin w docsPath options r e :
  validate w docsPath options = Ok r ->
  In e (errors r) ->
  exists file content,
    In file (Glob.glob w "**/*.{md,mdx}" docsPath []) /\
    Fs.readFile w (Path.join [docsPath; file]) = Ok content /\
    In e (file_errors w docsPath options file content).
Proof.
  intros H He.
  apply validate_spec in H as (_ & blocks & Hbs & Herr & _).
  rewrite Herr in He. apply in_concat in He as (es & Hes & He).
  apply in_map_iff in Hes as (block & <- & Hblock).
  destruct (Forall2_In_r _ _ _ _ Hbs Hblock) as (file & Hfile & content & Hread & ->).
  exists file, content. auto.
Qed.

Lemma reported_warnings_origin w docsPath options r x :
  validate w docsPath options = Ok r ->
  In x (warnings r) ->
  exists file content, In x (file_warnings options file content).
Proof.
  intros H Hx.
  apply validate_spec in H as (_ & blocks & Hbs & _ & Hwarn).
  rewrite Hwarn in Hx. apply in_concat in Hx as (ws & Hws & Hx).
  apply in_map_iff in Hws as (block & <- & Hblock).
  destruct (Forall2_In_r _ _ _ _ Hbs Hblock) as (file & Hfile & content & Hread & ->).
  exists file, content. auto.
Qed.

Lemma validateFrontmatter_parsed w file content options data :
  matter w content = Ok data ->
  validateFrontmatter w file content options
  = ((if truthy (data !! "title") then [] else [title_entry file])
     ++ (if truthy (data !! "description") then []
         else if strict options then [description_entry file] else []))%list.
Proof.
  intros Hm. unfold validateFrontmatter. rewrite Hm.
  destruct (truthy (data !! "title")), (truthy (data !! "description")),
    (strict options); reflexivity.
Qed.

Lemma check_link_entries w file docsPath linkUrl e :
  In e (check_link w file docsPath linkUrl) ->
  e = broken_link file linkUrl /\ is_internal linkUrl = true /\
  resolves w (targetPath file docsPath linkUrl) = false.
Proof.
  unfold check_link.
  destruct (is_internal linkUrl); [|intros []].
  destruct (resolves w (targetPath file docsPath linkUrl)); simpl; [intros []|].
  intros [<-|[]]. auto.
Qed.

Lemma validateLinks_entries w file content docsPath e :
  In e (validateLinks w file content docsPath) ->
  exists linkText linkUrl,
    In (linkText, linkUrl) (Js.exec_all link_at content) /\
    e = broken_link file linkUrl /\ is_internal linkUrl = true /\
    resolves w (targetPath file docsPath linkUrl) = false.
Proof.
  unfold validateLinks. intros H.
  apply in_flat_map in H as ([linkText linkUrl] & Hm & He).
  apply check_link_entries in He. eauto.
Qed.

Lemma frontmatter_entries_type w file content options e :
  In e (validateFrontmatter w file content options) ->
  e_file e = file /\ e_type e <> "broken_link".
Proof.
  unfold validateFrontmatter. intros H.
  destruct (matter w content) as [data|err].
  - apply in_app_or in H as [H|H].
    + destruct (negb _); [destruct H as [<-|[]]; split; [reflexivity|discriminate]
                         | destruct H].
    + destruct (_ && _); [destruct H as [<-|[]]; split; [reflexivity|discriminate]
                         | destruct H].
  - destruct H as [<-|[]]. split; [reflexivity|discriminate].
Qed.

Lemma file_errors_file w docsPath options file content e :
  In e (file_errors w docsPath options file content) -> e_file e = file.
Proof.
  unfold file_errors. intros H. apply in_app_or in H as [H|H].
  - now apply frontmatter_entries_type in H.
  - destruct (checkLinks options); [|destruct H].
    apply validateLinks_entries in H as (? & ? & _ & -> & _). reflexivity.
Qed.

Lemma file_warnings_types options file content x :
  In x (file_warnings options file content) ->
  In (w_type x) ["missing_code_language"; "empty_code_block";
                 "absolute_internal_url"; "missing_alt_text"].
Proof.
  unfold file_warnings. intros H. apply in_app_or in H as [H|H].
  - destruct (checkCodeExamples options); [|destruct H].
    unfold validateCodeExamples in H.
    apply in_flat_map in H as (m & _ & H).
    apply in_app_or in H as [H|H].
    + destruct (fst m); [destruct H|]. destruct H as [<-|[]]. simpl. auto.
    + destruct (_ =? _)%nat; [|destruct H]. destruct H as [<-|[]]. simpl. auto.
  - unfold checkCommonIssues in H. apply in_app_or in H as [H|H].
    + destruct (_ || _); [|destruct H]. destruct H as [<-|[]]. simpl. auto.
    + destruct (has_empty_alt_image content); [|destruct H].
      destruct H as [<-|[]]. simpl. auto.
Qed.

(** C7, as the code has it.  For a validated file whose frontmatter
    parses: with a title and no description, nothing at all is reported
    about the description when [strict] is off (no missing-frontmatter
    entry for the file among the errors, none among the warnings); when
    [strict] is on, one missing-frontmatter entry for the file is put in
    the errors list, labelled with severity [warning], and the result is
    not valid.  Without a title, a missing-frontmatter entry of severity
    [error] is in the errors list and the result is not valid, whatever
    [strict] is. *)
Theorem missing_description_reported_only_when_strict
        w docsPath options r file content data :
  validate w docsPath options = Ok r ->
  In file (Glob.glob w "**/*.{md,mdx}" docsPath []) ->
  Fs.readFile w (Path.join [docsPath; file]) = Ok content ->
  matter w content = Ok data ->
  (truthy (data !! "title") = true -> truthy (data !! "description") = false ->
   (strict options = false ->
    (forall e, In e (errors r) -> e_file e = file -> e_type e <> "missing_frontmatter") /\
    (forall x, In x (warnings r) -> w_type x <> "missing_frontmatter")) /\
   (strict options = true ->
    In {| e_file := file; e_type := "missing_frontmatter";
          e_message := "Missing recommended frontmatter field: description";
          severity := warning |} (errors r) /\
    valid r = false)) /\
  (truthy (data !! "title") = false ->
   In {| e_file := file; e_type := "missing_frontmatter";
         e_message := "Missing required frontmatter field: title";
         severity := error |} (errors r) /\
   valid r = false).
Proof.
  intros H Hfile Hread Hm.
  pose proof (validateFrontmatter_parsed w file content options data Hm) as Hfm.
  split.
  - intros Ht Hd. rewrite Ht, Hd in Hfm. simpl in Hfm. split.
    + intros Hs. rewrite Hs in Hfm. split.
      * intros e He Hf.
        destruct (reported_errors_origin _ _ _ _ _ H He)
          as (file' & content' & _ & Hread' & He').
        pose proof (file_errors_file _ _ _ _ _ _ He') as Hf'.
        rewrite Hf in Hf'. subst file'.
        rewrite Hread in Hread'. inversion Hread'; subst content'.
        unfold file_errors in He'. rewrite Hfm in He'. simpl in He'.
        destruct (checkLinks options); [|destruct He'].
        apply validateLinks_entries in He' as (? & ? & _ & -> & _). discriminate.
      * intros x Hx.
        destruct (reported_warnings_origin _ _ _ _ _ H Hx) as (file' & content' & Hx').
        apply file_warnings_types in Hx'. simpl in Hx'.
        intros Heq. rewrite Heq in Hx'.
        repeat (destruct Hx' as [Hx'|Hx']; [discriminate|]). destruct Hx'.
    + intros Hs. rewrite Hs in Hfm.
      apply (errors_of_file_reported w docsPath options r file content); auto.
      unfold file_errors. rewrite Hfm. left. reflexivity.
  - intros Ht. rewrite Ht in Hfm.
    apply (errors_of_file_reported w docsPath options r file content); auto.
    unfold file_errors. rewrite Hfm. left. reflexivity.
Qed.

Lemma missing_description_reported_only_when_strict_witness :
  exists r,
    validate ScenarioDocs.frontmatter_world "docs" strict_options = Ok r /\
    In (description_entry "page.mdx") (errors r) /\ valid r = false.
Proof.
  eexists. split; [vm_compute; reflexivity|].
  refine (proj2 (proj1 (missing_description_reported_only_when_strict
            ScenarioDocs.frontmatter_world "docs" strict_options _ "page.mdx"
            ScenarioDocs.title_only_page {[ "title" := JString "x" ]}
            _ _ _ _) _ _) _).
  - vm_compute. reflexivity.
  - vm_compute. left. reflexivity.
  - vm_compute. reflexivity.
  - vm_compute. reflexivity.
  - vm_compute. reflexivity.
  - vm_compute. reflexivity.
  - reflexivity.
Defined.

(** C7 as stated fails: the only page of [ScenarioDocs.frontmatter_world]
    has a title and no description.  Without [strict] the validation
    result has no warning at all; with [strict] the entry in the errors
    list carries severity [warning], not [error]. *)
Lemma title_only_page_gets_no_warning :
  In "page.mdx" (Glob.glob ScenarioDocs.frontmatter_world "**/*.{md,mdx}" "docs" []) /\
  Fs.readFile ScenarioDocs.frontmatter_world (Path.join ["docs"; "page.mdx"])
  = Ok ScenarioDocs.title_only_page /\
  matter ScenarioDocs.frontmatter_world ScenarioDocs.title_only_page
  = Ok {[ "title" := JString "x" ]} /\
  validate ScenarioDocs.frontmatter_world "docs" lenient
  = Ok {| valid := true; errors := []; warnings := [];
          summary := {| total_files := 1; files_with_errors := 0;
                        total_errors := 0; total_warnings := 0 |} |} /\
  validate ScenarioDocs.frontmatter_world "docs" strict_options
  = Ok {| valid := false;
          errors := [{| e_file := "page.mdx"; e_type := "missing_frontmatter";
                        e_message := "Missing recommended frontmatter field: description";
                        severity := warning |}];
          warnings := [];
          summary := {| total_files := 1; files_with_errors := 1;
                        total_errors := 1; total_warnings := 0 |} |}.
Proof.
  repeat split; try (vm_compute; reflexivity). vm_compute. left. reflexivity.
Qed.




(** The errors of [validateLinks] are one per broken link, in order. *)
Lemma validateLinks_count w file content docsPath :
  validateLinks w file content docsPath
  = map (fun m => broken_link file (snd m))
        (List.filter (is_broken w file docsPath) (Js.exec_all link_at content)).
Proof.
  unfold validateLinks.
  induction (Js.exec_all link_at content) as [|m ms IH]; simpl; [reflexivity|].
  rewrite IH. unfold check_link, is_broken.
  destruct (is_internal (snd m)); simpl; [|reflexivity].
  destruct (resolves w (targetPath file docsPath (snd m))); reflexivity.
Qed.




End Validation.

(** * Further properties *)

(** ** Suffixes of strings *)

Section Suffixes.

Lemma length_append_str (a b : string) :
  String.length (a ++ b) = (String.length a + String.length b)%nat.
Proof.
  induction a as [|c a IH]; [reflexivity|].
  rewrite append_cons. simpl. now rewrite IH.
Qed.

Lemma substring_whole (s : string) : String.substring 0 (String.length s) s = s.
Proof. induction s as [|c s IH]; simpl; [reflexivity | now rewrite IH]. Qed.

Lemma substring_skip (pre p : string) (k : nat) :
  String.substring (String.length pre) k (pre ++ p) = String.substring 0 k p.
Proof.
  induction pre as [|c pre IH]; [reflexivity|].
  rewrite append_cons. simpl. exact IH.
Qed.

Lemma substring_split (s : string) : forall k,
  (k <= String.length s)%nat ->
  s = String.substring 0 k s ++ String.substring k (String.length s - k) s.
Proof.
  induction s as [|c s IH]; intros k Hk.
  - simpl in Hk. assert (k = 0)%nat as -> by lia. reflexivity.
  - destruct k as [|k].
    + change (String.substring 0 0 (String c s)) with "".
      now rewrite append_nil_l, Nat.sub_0_r, substring_whole.
    + simpl in Hk. simpl. rewrite append_cons. f_equal. apply IH. lia.
Qed.

Lemma endsWith_app (pre p : string) : Js.endsWith (pre ++ p) p = true.
Proof.
  unfold Js.endsWith. rewrite length_append_str.
  replace (String.length pre + String.length p - String.length p)%nat
    with (String.length pre) by lia.
  rewrite substring_skip, substring_whole, String.eqb_refl.
  rewrite andb_true_r. apply Nat.leb_le. lia.
Qed.

Lemma endsWith_inv (s p : string) :
  Js.endsWith s p = true -> exists pre, s = pre ++ p.
Proof.
  unfold Js.endsWith. intros H. apply andb_prop in H as [Hle Heq].
  apply Nat.leb_le in Hle. apply String.eqb_eq in Heq.
  remember (String.length p) as m eqn:Hm.
  exists (String.substring 0 (String.length s - m) s).
  rewrite <- Heq.
  pose proof (substring_split s (String.length s - m) ltac:(lia)) as Hsplit.
  replace (String.length s - (String.length s - m))%nat with m in Hsplit by lia.
  exact Hsplit.
Qed.

Lemma endsWith_longer (pre s p : string) :
  Js.endsWith s p = true -> Js.endsWith (pre ++ s) p = true.
Proof.
  intros H. apply endsWith_inv in H as [pre' ->].
  rewrite <- append_assoc. apply endsWith_app.
Qed.

Lemma snoc_char_inj (a b : string) (c c' : ascii) :
  a ++ String c "" = b ++ String c' "" -> c = c'.
Proof.
  revert b. induction a as [|x a IH]; intros [|y b] H.
  - rewrite !append_nil_l in H. now inversion H.
  - rewrite append_nil_l, append_cons in H. inversion H as [[Hx Hb]].
    destruct b; discriminate.
  - rewrite append_nil_l, append_cons in H. inversion H as [[Hx Ha]].
    destruct a; discriminate.
  - rewrite !append_cons in H. inversion H. eauto.
Qed.

Lemma last_char (s : string) :
  s <> "" -> exists pre c, s = pre ++ String c "".
Proof.
  induction s as [|x s IH]; [congruence|]. intros _.
  destruct s as [|y s].
  - exists "", x. reflexivity.
  - destruct (IH ltac:(discriminate)) as (pre & c & ->).
    exists (String x pre), c. reflexivity.
Qed.

Lemma no_sep_app (a b : string) :
  no_sep (a ++ b) = no_sep a && no_sep b.
Proof.
  induction a as [|c a IH]; [reflexivity|].
  rewrite append_cons. simpl. rewrite IH. now rewrite andb_assoc.
Qed.

(** A path that ends in a plain name has no trailing separator. *)
Lemma plain_no_trailing_sep (q item : string) :
  plain item = true -> Js.endsWith (q ++ item) "/" = false.
Proof.
  intros Hp. apply plain_facts in Hp as (Hn & _ & _ & Hne).
  destruct (Js.endsWith (q ++ item) "/") eqn:E; [|reflexivity].
  apply endsWith_inv in E as [pre E].
  destruct (last_char item Hne) as (i' & c & ->).
  rewrite <- append_assoc in E. apply snoc_char_inj in E. subst c.
  rewrite no_sep_app in Hn. apply andb_prop in Hn as [_ Hn]. discriminate Hn.
Qed.

Lemma join_snoc (sep : string) (l : list string) (x : string) :
  exists pre, Js.join sep (l ++ [x]) = pre ++ x.
Proof.
  induction l as [|y l IH]; [exists ""; reflexivity|].
  destruct IH as [pre IH].
  destruct l as [|z l].
  - exists (y ++ sep). simpl. now rewrite append_assoc.
  - exists (y ++ sep ++ pre).
    change (Js.join sep ((y :: z :: l) ++ [x]))
      with (y ++ sep ++ Js.join sep ((z :: l) ++ [x])).
    rewrite IH. now rewrite !append_assoc.
Qed.

(** The joined path of an entry ends with the name of the entry. *)
Lemma join_entry_suffix (d item : string) :
  plain item = true -> exists pre, Path.join [d; item] = pre ++ item.
Proof.
  intros Hp. pose proof (plain_facts item Hp) as (Hn & Hk & Hd & Hne).
  assert (Hq : exists q, Path.join [d; item] = Path.normalize (q ++ item)
                         /\ Js.split Path.sep (q ++ item)
                            = (removelast (Js.split Path.sep (q ++ item)) ++ [item])%list).
  { unfold Path.join. simpl.
    destruct (String.eqb_spec item ""); [contradiction|]. simpl.
    destruct (String.eqb_spec d "") as [->|Hdne]; simpl.
    - exists "". rewrite append_nil_l. split; [reflexivity|].
      now rewrite (split_plain item Hn).
    - exists (d ++ "/"). rewrite append_assoc. split; [reflexivity|].
      change (d ++ "/" ++ item) with (d ++ String Path.sep item).
      rewrite split_app_sep, (split_plain item Hn).
      now rewrite removelast_last. }
  destruct Hq as (q & -> & Hsplit).
  unfold Path.normalize.
  assert (Hqne : q ++ item <> "").
  { destruct q; [now rewrite append_nil_l | rewrite append_cons; discriminate]. }
  destruct (String.eqb_spec (q ++ item) ""); [contradiction|].
  rewrite (plain_no_trailing_sep q item Hp).
  set (abs := Path.isAbsolute (q ++ item)).
  assert (HX : Path.normalizeSegments (negb abs) (Js.split Path.sep (q ++ item))
               = (Path.normalizeSegments (negb abs)
                    (removelast (Js.split Path.sep (q ++ item))) ++ [item])%list).
  { rewrite Hsplit at 1. unfold Path.normalizeSegments. rewrite fold_left_app. simpl.
    now apply step_push. }
  rewrite HX.
  destruct (join_snoc "/" (Path.normalizeSegments (negb abs)
              (removelast (Js.split Path.sep (q ++ item)))) item) as [pre Hpre].
  rewrite Hpre.
  destruct (String.eqb_spec (pre ++ item) "") as [E|_].
  - exfalso. destruct pre; [rewrite append_nil_l in E; contradiction|].
    rewrite append_cons in E. discriminate.
  - rewrite append_empty_r. exists ((if abs then "/" else "") ++ pre).
    now rewrite append_assoc.
Qed.

End Suffixes.


(** ** Discovery by [findFiles] *)

Section Discovery.
Import SyncChecker.

Lemma assoc_In name entries child :
  Fs.assoc name entries = Some child -> In (name, child) entries.
Proof.
  induction entries as [|[n c] rest IH]; simpl; [discriminate|].
  destruct (String.eqb_spec n name) as [->|_].
  - intros H. inversion H. now left.
  - intros H. right. now apply IH.
Qed.

Lemma wf_entry t entries item child :
  wf_node (Dir t entries) = true ->
  In (item, child) entries ->
  plain item = true /\ wf_node child = true /\ Fs.assoc item entries = Some child.
Proof.
  simpl. intros Hwf Hin.
  apply andb_prop in Hwf as [Hwf Hkids]. apply andb_prop in Hwf as [Hplain Hdist].
  rewrite forallb_forall in Hplain. rewrite forallb_forall in Hkids.
  split; [|split].
  - apply Hplain. apply in_map_iff. exists (item, child). auto.
  - apply (Hkids (item, child) Hin).
  - now apply assoc_distinct.
Qed.

(** What [walk] does with one entry. *)
Lemma walk_entry extensions directory item child :
  (if Fs.isDirectory child && negb (Js.startsWith item ".")
      && negb (String.eqb item "node_modules")
   then walk extensions (Path.join [directory; item]) child
   else if Fs.isFile child && existsb (fun ext => Js.endsWith item ext) extensions
        then [Path.join [directory; item]] else [])
  = match child with
    | Dir _ _ =>
        if skipped_dir item then []
        else walk extensions (Path.join [directory; item]) child
    | File _ _ =>
        if existsb (fun ext => Js.endsWith item ext) extensions
        then [Path.join [directory; item]] else []
    end.
Proof.
  unfold skipped_dir. destruct child; simpl; [reflexivity|].
  destruct (Js.startsWith item "."); simpl; [reflexivity|].
  destruct (String.eqb item "node_modules"); reflexivity.
Qed.

Lemma walk_sound cwd extensions : forall n directory p,
  wf_node n = true ->
  In p (walk extensions directory n) ->
  exists names item,
    Path.resolve cwd p = (Path.resolve cwd directory ++ names ++ [item])%list /\
    reachable_file n names item = true /\
    existsb (fun ext => Js.endsWith item ext) extensions = true /\
    existsb (fun ext => Js.endsWith p ext) extensions = true.
Proof.
  induction n as [t c|t entries IH] using node_nested_ind;
    intros directory p Hwf Hin; [destruct Hin|].
  simpl in Hin. apply in_flat_map in Hin as ([item child] & Hentry & Hin).
  simpl in Hin. rewrite walk_entry in Hin.
  destruct (wf_entry t entries item child Hwf Hentry) as (Hplain & Hwfc & Hassoc).
  rewrite List.Forall_forall in IH. specialize (IH _ Hentry). simpl in IH.
  destruct child as [t' c'|t' entries'].
  - destruct (existsb _ extensions) eqn:Hext; [|destruct Hin].
    destruct Hin as [<-|[]].
    exists [], item. split; [now rewrite resolve_join_entry|].
    split; [simpl; now rewrite Hassoc|]. split; [exact Hext|].
    destruct (join_entry_suffix directory item Hplain) as [pre ->].
    apply existsb_exists in Hext as (ext & Hin & Hends).
    apply existsb_exists. exists ext. split; [exact Hin|].
    now apply endsWith_longer.
  - destruct (skipped_dir item) eqn:Hskip; [destruct Hin|].
    destruct (IH _ p Hwfc Hin) as (names & leaf & Hres & Hreach & Hext & Hpext).
    exists (item :: names), leaf.
    split; [|split; [|auto]].
    + rewrite Hres, resolve_join_entry by assumption.
      now rewrite <- app_assoc.
    + simpl. rewrite Hassoc. simpl. now rewrite Hskip.
Qed.

Lemma walk_complete cwd extensions : forall names n directory item,
  reachable_file n names item = true ->
  wf_node n = true ->
  existsb (fun ext => Js.endsWith item ext) extensions = true ->
  exists p,
    In p (walk extensions directory n) /\
    Path.resolve cwd p = (Path.resolve cwd directory ++ names ++ [item])%list.
Proof.
  induction names as [|name names IH]; intros n directory item Hreach Hwf Hext;
    destruct n as [|t entries]; try discriminate; simpl in Hreach.
  - destruct (Fs.assoc item entries) as [[t' c'|]|] eqn:Ha; try discriminate.
    apply assoc_In in Ha.
    destruct (wf_entry t entries item _ Hwf Ha) as (Hplain & _ & _).
    exists (Path.join [directory; item]). split.
    + simpl. apply in_flat_map. exists (item, File t' c'). split; [exact Ha|].
      simpl. rewrite Hext. now left.
    + now rewrite resolve_join_entry.
  - destruct (Fs.assoc name entries) as [child|] eqn:Ha; [|discriminate].
    apply andb_prop in Hreach as [Hreach Hrest].
    apply andb_prop in Hreach as [Hdir Hskip]. apply negb_true_iff in Hskip.
    apply assoc_In in Ha.
    destruct (wf_entry t entries name child Hwf Ha) as (Hplain & Hwfc & _).
    destruct (IH child (Path.join [directory; name]) item Hrest Hwfc Hext)
      as (p & Hin & Hres).
    exists p. split.
    + simpl. apply in_flat_map. exists (name, child). split; [exact Ha|].
      cbv beta. change (fst (name, child)) with name.
      change (snd (name, child)) with child.
      rewrite walk_entry. destruct child; [discriminate|]. now rewrite Hskip.
    + rewrite Hres, resolve_join_entry by assumption. now rewrite <- app_assoc.
Qed.

(** X1.  On a well-formed tree every path that [findFiles] returns
    names an existing regular file whose name ends with one of the
    requested extensions, and it lies below the root along directories
    that are neither hidden nor called node_modules. *)
Theorem findFiles_returns_only_matching_files w dir extensions found p :
  wf_node (fs_root w) = true ->
  findFiles w dir extensions = Ok found ->
  In p found ->
  (exists t content, Fs.statSync w p = Ok (File t content)) /\
  existsb (fun ext => Js.endsWith p ext) extensions = true /\
  exists rootNode names item,
    Fs.at_path w dir = Some rootNode /\
    Path.resolve (cwd w) p = (Path.resolve (cwd w) dir ++ names ++ [item])%list /\
    Forall (fun name => skipped_dir name = false) names /\
    reachable_file rootNode names item = true.
Proof.
  intros Hwf Hf Hin. unfold findFiles in Hf.
  destruct (Fs.at_path w dir) as [[|t entries]|] eqn:Hat; try discriminate.
  inversion Hf; subst found; clear Hf.
  assert (Hwf' : wf_node (Dir t entries) = true).
  { unfold Fs.at_path in Hat. now apply (wf_lookup _ _ _ Hwf Hat). }
  split; [|split].
  - destruct (walk_finds_files w extensions _ _ _ Hwf' Hat Hin) as (t' & c & Hp).
    exists t', c. unfold Fs.statSync. now rewrite Hp.
  - now destruct (walk_sound (cwd w) extensions _ _ _ Hwf' Hin) as (? & ? & _ & _ & _ & H).
  - destruct (walk_sound (cwd w) extensions _ _ _ Hwf' Hin)
      as (names & item & Hres & Hreach & _ & _).
    exists (Dir t entries), names, item. repeat split; auto.
    clear Hres Hin Hat. revert Hreach Hwf'. generalize (Dir t entries).
    induction names as [|name names IH]; intros n Hreach Hwfn; [constructor|].
    destruct n as [|t' es]; [discriminate|]. simpl in Hreach.
    destruct (Fs.assoc name es) as [child|] eqn:Ha; [|discriminate].
    apply andb_prop in Hreach as [Hreach Hrest].
    apply andb_prop in Hreach as [_ Hskip]. apply negb_true_iff in Hskip.
    constructor; [exact Hskip|].
    apply (IH child Hrest).
    apply assoc_In in Ha. now destruct (wf_entry t' es name child Hwfn Ha) as (_ & ? & _).
Qed.

Lemma findFiles_returns_only_matching_files_witness :
  exists t content,
    Fs.statSync Scenario.drift_world "docs/api/users.mdx" = Ok (File t content).
Proof.
  apply (findFiles_returns_only_matching_files
           Scenario.drift_world "./docs" doc_extensions
           ["docs/api/users.mdx"] "docs/api/users.mdx");
    [reflexivity | vm_compute; reflexivity | left; reflexivity].
Defined.

(** X2.  Conversely, on a well-formed tree [findFiles] misses nothing:
    every regular file whose name ends with one of the extensions and
    that is reached from the root through directories that are neither
    hidden nor called node_modules is among the returned paths.  The
    file itself may well be hidden. *)
Theorem findFiles_finds_every_reachable_file w dir extensions found rootNode names item :
  wf_node (fs_root w) = true ->
  findFiles w dir extensions = Ok found ->
  Fs.at_path w dir = Some rootNode ->
  reachable_file rootNode names item = true ->
  existsb (fun ext => Js.endsWith item ext) extensions = true ->
  exists p,
    In p found /\
    Path.resolve (cwd w) p = (Path.resolve (cwd w) dir ++ names ++ [item])%list.
Proof.
  intros Hwf Hf Hat Hreach Hext. unfold findFiles in Hf. rewrite Hat in Hf.
  destruct rootNode as [|t entries]; [discriminate|].
  inversion Hf; subst found; clear Hf.
  apply (walk_complete (cwd w) extensions names (Dir t entries) dir item); auto.
  unfold Fs.at_path in Hat. now apply (wf_lookup _ _ _ Hwf Hat).
Qed.

Lemma findFiles_finds_every_reachable_file_witness :
  exists p,
    In p ["src/api/users.ts"; "src/api/orders.ts"] /\
    Path.resolve ["repo"] p = ["repo"; "src"; "api"; "orders.ts"].
Proof.
  apply (findFiles_finds_every_reachable_file
           Scenario.drift_world "./src" source_extensions
           ["src/api/users.ts"; "src/api/orders.ts"]
           (Dir 0 [("api", Dir 0 [("users.ts", File 0 "export {}");
                                  ("orders.ts", File 0 "export {}")])])
           ["api"] "orders.ts");
    vm_compute; reflexivity.
Defined.

End Discovery.

(** ** More about the sync checker *)

Section SyncReportShape.
Import SyncChecker.



(** X4.  Where the git command fails, [getLastModified] is the
    modification time of the file system in seconds for an existing
    path, and the exception of [statSync] escapes for a missing one.  In
    any world the function returns, without throwing, for every existing
    path. *)
Theorem getLastModified_falls_back_to_mtime w filePath :
  (git w = GitUnavailable ->
   forall st, Fs.statSync w filePath = Ok st ->
              getLastModified w filePath = Ok (Fs.mtimeMs st / 1000)%Q) /\
  (git w = GitUnavailable ->
   Fs.existsSync w filePath = false ->
   getLastModified w filePath = Throw (ENOENT filePath)) /\
  (Fs.existsSync w filePath = true -> exists q, getLastModified w filePath = Ok q).
Proof.
  split; [|split].
  - intros Hg st Hst. now apply getLastModified_git_fails.
  - intros Hg He. unfold getLastModified, execSync_git_log. rewrite Hg. simpl.
    unfold Fs.statSync. unfold Fs.existsSync in He.
    destruct (Fs.at_path w filePath); [discriminate | reflexivity].
  - apply getLastModified_returns.
Qed.

Lemma getLastModified_falls_back_to_mtime_witness :
  getLastModified Scenario.no_git_world "docs/new.md" = Ok (1700000000000 / 1000)%Q /\
  getLastModified Scenario.no_git_world "docs/old.md" = Throw (ENOENT "docs/old.md").
Proof.
  split.
  - apply (proj1 (getLastModified_falls_back_to_mtime Scenario.no_git_world "docs/new.md")
             eq_refl (File 1700000000000 "# New")). reflexivity.
  - apply (proj1 (proj2 (getLastModified_falls_back_to_mtime
                           Scenario.no_git_world "docs/old.md"))); reflexivity.
Defined.

(** X5.  On a well-formed tree [analyzeSync] returns a report exactly
    when both roots are directories; otherwise it throws. *)
Theorem analyzeSync_returns_iff_roots_are_directories w config :
  wf_node (fs_root w) = true ->
  ((exists r, analyzeSync w config = Ok r) <->
   (exists t entries, Fs.at_path w (source config) = Some (Dir t entries)) /\
   (exists t entries, Fs.at_path w (docs config) = Some (Dir t entries))).
Proof.
  intros Hwf. split.
  - intros [r Hr]. apply analyzeSync_spec in Hr as (sf & df & Hs & Hd & _).
    unfold findFiles in Hs, Hd.
    destruct (Fs.at_path w (source config)) as [[|ts es]|]; try discriminate.
    destruct (Fs.at_path w (docs config)) as [[|td ed]|]; try discriminate.
    split; eauto.
  - intros [Hs Hd]. now apply analyzeSync_returns.
Qed.

Lemma analyzeSync_returns_iff_roots_are_directories_witness :
  exists r, analyzeSync Scenario.drift_world Scenario.config = Ok r.
Proof.
  apply (analyzeSync_returns_iff_roots_are_directories
           Scenario.drift_world Scenario.config eq_refl).
  split; eexists; eexists; vm_compute; reflexivity.
Defined.

Lemma check_outdated_frame w config docFile results results' :
  check_outdated w config docFile results = Ok results' ->
  timestamp results' = timestamp results /\
  recommendations results' = recommendations results /\
  totalSourceFiles (summary results') = totalSourceFiles (summary results) /\
  totalDocFiles (summary results') = totalDocFiles (summary results) /\
  missingDocs (summary results') = missingDocs (summary results).
Proof.
  unfold check_outdated.
  destruct (Fs.existsSync w (sourceEquivalent w config docFile)).
  - intros H. apply bind_Ok in H as (docMod & _ & H).
    apply bind_Ok in H as (srcMod & _ & H).
    destruct (0 <? days_between docMod srcMod)%Z; inversion H; subst; simpl; auto.
  - intros H. inversion H; subst. auto.
Qed.

Lemma outdated_loop_frame w config docFiles : forall results results',
  for_of (check_outdated w config) docFiles results = Ok results' ->
  timestamp results' = timestamp results /\
  recommendations results' = recommendations results /\
  totalSourceFiles (summary results') = totalSourceFiles (summary results) /\
  totalDocFiles (summary results') = totalDocFiles (summary results) /\
  missingDocs (summary results') = missingDocs (summary results).
Proof.
  induction docFiles as [|docFile rest IH]; intros results results' H; simpl in H.
  - inversion H; subst. auto.
  - apply bind_Ok in H as (mid & Hstep & Hrest).
    apply check_outdated_frame in Hstep as (H1 & H2 & H3 & H4 & H5).
    apply IH in Hrest as (H1' & H2' & H3' & H4' & H5').
    repeat split; congruence.
Qed.

Lemma missing_loop_shape w config apiFiles : forall results,
  let results' := fold_left (check_missing w config) apiFiles results in
  missing results'
  = (missing results
     ++ map (missing_entry_for w config)
            (List.filter
               (fun f => negb (Fs.existsSync w (docEquivalent w config f))) apiFiles))%list /\
  missingDocs (summary results')
  = (missingDocs (summary results)
     + length (List.filter
                 (fun f => negb (Fs.existsSync w (docEquivalent w config f))) apiFiles))%nat /\
  timestamp results' = timestamp results /\
  recommendations results' = recommendations results /\
  totalSourceFiles (summary results') = totalSourceFiles (summary results) /\
  totalDocFiles (summary results') = totalDocFiles (summary results).
Proof.
  induction apiFiles as [|f rest IH]; intros results; simpl.
  - rewrite app_nil_r. repeat split; auto.
  - destruct (IH (check_missing w config results f)) as (Hm & Hn & Ht & Hr & Hs & Hd).
    cbv zeta in *. rewrite Hm, Hn, Ht, Hr, Hs, Hd. unfold check_missing.
    destruct (negb (Fs.existsSync w (docEquivalent w config f))); simpl.
    + rewrite <- app_assoc. repeat split; auto; lia.
    + repeat split; auto.
Qed.

Lemma filter_filter_andb {A} (f g : A -> bool) (l : list A) :
  List.filter g (List.filter f l) = List.filter (fun x => f x && g x) l.
Proof.
  induction l as [|x l IH]; simpl; [reflexivity|].
  destruct (f x); simpl; [destruct (g x); now rewrite IH | exact IH].
Qed.

Lemma analyzeFiles_shape w config sourceFiles docFiles r :
  analyzeFiles w config sourceFiles docFiles = Ok r ->
  timestamp r = now w /\
  totalSourceFiles (summary r) = length sourceFiles /\
  totalDocFiles (summary r) = length docFiles /\
  missing r = map (missing_entry_for w config)
                  (List.filter (lacks_doc w config) sourceFiles) /\
  missingDocs (summary r) = length (missing r) /\
  recommendations r
  = ((if (0 <? length (outdated r))%nat then [update_recommendation (outdated r)] else [])
     ++ (if (0 <? length (missing r))%nat then [create_recommendation (missing r)] else []))%list.
Proof.
  unfold analyzeFiles. intros H.
  apply bind_Ok in H as (r1 & Hloop & H). inversion H; subst; clear H.
  pose proof (outdated_loop_spec _ _ _ _ _ Hloop) as (_ & _ & _ & _ & Hmiss1 & _).
  apply outdated_loop_frame in Hloop as (Ht & Hr & Hs & Hd & Hn).
  simpl in Ht, Hr, Hs, Hd, Hn, Hmiss1.
  destruct (missing_loop_shape w config (List.filter is_api_file sourceFiles) r1)
    as (Hm2 & Hn2 & Ht2 & Hr2 & Hs2 & Hd2).
  cbv zeta in *.
  set (r2 := fold_left (check_missing w config) (List.filter is_api_file sourceFiles) r1)
    in *.
  rewrite Hmiss1 in Hm2. simpl in Hm2. rewrite filter_filter_andb in Hm2, Hn2.
  fold (lacks_doc w config) in Hm2.
  destruct (recommend_keeps r2) as (Ho3 & Hm3 & Hsum).
  assert (Hrec : recommendations (recommend_create (recommend_update r2))
                 = ((if (0 <? length (outdated r2))%nat
                     then [update_recommendation (outdated r2)] else [])
                    ++ (if (0 <? length (missing r2))%nat
                        then [create_recommendation (missing r2)] else []))%list).
  { unfold recommend_create, recommend_update.
    destruct (0 <? length (outdated r2))%nat; simpl;
      destruct (0 <? length (missing r2))%nat; simpl; rewrite Hr2, Hr; reflexivity. }
  assert (Htime : timestamp (recommend_create (recommend_update r2)) = timestamp r2).
  { unfold recommend_create, recommend_update.
    destruct (0 <? length (outdated r2))%nat; simpl;
      destruct (0 <? length (missing r2))%nat; reflexivity. }
  rewrite Hsum, Hm3, Ho3, Hrec, Htime, Hs2, Hd2, Hn2, Hm2, Ht2, Hs, Hd, Hn, Ht.
  rewrite length_map. repeat split; auto.
Qed.

(** X6.  The counters of a report agree with its lists: the two totals
    are the numbers of discovered source and documentation files,
    [outdatedDocs] and [missingDocs] are the lengths of the two entry
    lists, and the documentation files counted outdated or up to date
    are never more than the documentation files discovered.  The
    timestamp is the time of the run. *)
Theorem summary_counts_agree_with_lists w config r :
  analyzeSync w config = Ok r ->
  exists sourceFiles docFiles,
    findFiles w (source config) source_extensions = Ok sourceFiles /\
    findFiles w (docs config) doc_extensions = Ok docFiles /\
    totalSourceFiles (summary r) = length sourceFiles /\
    totalDocFiles (summary r) = length docFiles /\
    outdatedDocs (summary r) = length (outdated r) /\
    missingDocs (summary r) = length (missing r) /\
    (upToDate (summary r) + outdatedDocs (summary r) <= totalDocFiles (summary r))%nat /\
    (missingDocs (summary r) <= totalSourceFiles (summary r))%nat /\
    timestamp r = now w.
Proof.
  intros H. apply analyzeSync_spec in H as (sourceFiles & docFiles & Hs & Hd & H).
  pose proof (analyzeFiles_spec _ _ _ _ _ H) as (_ & _ & Hn & Hu).
  apply analyzeFiles_shape in H as (Ht & Hts & Htd & Hm & Hmd & _).
  exists sourceFiles, docFiles. repeat split; auto.
  - rewrite Hu, Htd. apply filter_length_le.
  - rewrite Hmd, Hm, length_map, Hts. apply filter_length_le.
Qed.

Lemma summary_counts_agree_with_lists_witness :
  exists r, analyzeSync Scenario.drift_world Scenario.config = Ok r /\
            missingDocs (summary r) = length (missing r) /\
            outdatedDocs (summary r) = length (outdated r).
Proof.
  destruct (summary_counts_agree_with_lists Scenario.drift_world Scenario.config _ eq_refl)
    as (sf & df & _ & _ & _ & _ & Ho & Hm & _).
  eexists. split; [reflexivity|]. split; [exact Hm | exact Ho].
Defined.

(** X7.  The missing list of a report has, in discovery order, one
    entry for each discovered source file whose path contains [/api/],
    [/routes/] or [/components/] and whose documentation file does not
    exist, and nothing else; the priority of an entry is [high] exactly
    when the source path contains [/api/], and [medium] otherwise. *)
Theorem missing_entries_are_undocumented_api_files w config r :
  analyzeSync w config = Ok r ->
  exists sourceFiles,
    findFiles w (source config) source_extensions = Ok sourceFiles /\
    missing r = map (missing_entry_for w config)
                    (List.filter (lacks_doc w config) sourceFiles) /\
    (forall m, In m (missing r) ->
       exists apiFile,
         In apiFile sourceFiles /\
         is_api_file apiFile = true /\
         Fs.existsSync w (docEquivalent w config apiFile) = false /\
         m_source m = Path.relative (cwd w) (source config) apiFile /\
         (m_priority m = high <-> Js.includes apiFile "/api/" = true) /\
         (m_priority m = medium <-> Js.includes apiFile "/api/" = false) /\
         m_priority m <> low) /\
    (forall apiFile,
       In apiFile sourceFiles ->
       is_api_file apiFile = false \/
       Fs.existsSync w (docEquivalent w config apiFile) = true ->
       ~ In apiFile (List.filter (lacks_doc w config) sourceFiles)).
Proof.
  intros H. apply analyzeSync_spec in H as (sourceFiles & docFiles & Hs & Hd & H).
  apply analyzeFiles_shape in H as (_ & _ & _ & Hm & _).
  exists sourceFiles. split; [exact Hs|]. split; [exact Hm|]. split.
  - intros m Hin. rewrite Hm in Hin. apply in_map_iff in Hin as (apiFile & <- & Hin).
    apply filter_In in Hin as [Hin Hlack]. unfold lacks_doc in Hlack.
    apply andb_prop in Hlack as [Hapi Hdoc]. apply negb_true_iff in Hdoc.
    exists apiFile. simpl. repeat split; auto;
      destruct (Js.includes apiFile "/api/"); try congruence; try discriminate.
  - intros apiFile Hin Hor Hf. apply filter_In in Hf as [_ Hlack].
    unfold lacks_doc in Hlack. apply andb_prop in Hlack as [Hapi Hdoc].
    apply negb_true_iff in Hdoc. destruct Hor; congruence.
Qed.

Lemma missing_entries_are_undocumented_api_files_witness :
  exists r, analyzeSync Scenario.drift_world Scenario.config = Ok r /\
            missing r = [missing_entry_for Scenario.drift_world Scenario.config
                                           "src/api/orders.ts"].
Proof.
  destruct (missing_entries_are_undocumented_api_files
              Scenario.drift_world Scenario.config _ eq_refl)
    as (sf & Hs & Hm & _).
  eexists. split; [reflexivity|].
  rewrite Hm. vm_compute in Hs. inversion Hs; subst sf. vm_compute. reflexivity.
Defined.

(** X8.  A report carries at most two recommendations: an [update] one
    exactly when the outdated list is not empty, followed by a [create]
    one exactly when the missing list is not empty.  Each names the
    first five files of its list at most, while its message counts them
    all. *)
Theorem recommendations_follow_the_lists w config r :
  analyzeSync w config = Ok r ->
  recommendations r
  = ((if (0 <? length (outdated r))%nat then [update_recommendation (outdated r)] else [])
     ++ (if (0 <? length (missing r))%nat then [create_recommendation (missing r)] else []))%list /\
  (length (recommendations r) <= 2)%nat /\
  (recommendations r = [] <-> status r = synced) /\
  (forall rec, In rec (recommendations r) ->
     (length (files rec) <= 5)%nat /\
     (r_type rec = "update" /\ files rec = map doc (firstn 5 (outdated r)) \/
      r_type rec = "create" /\ files rec = map expectedDoc (firstn 5 (missing r)))).
Proof.
  intros H. apply analyzeSync_spec in H as (sourceFiles & docFiles & _ & _ & H).
  pose proof (analyzeFiles_spec _ _ _ _ _ H) as (Hst & _).
  apply analyzeFiles_shape in H as (_ & _ & _ & _ & _ & Hrec).
  split; [exact Hrec|]. rewrite Hrec, Hst. unfold derived_status.
  destruct (outdated r) as [|o os], (missing r) as [|m ms]; simpl;
    (split; [lia|]); (split; [split; congruence|]);
    intros rec Hin; simpl in Hin;
    repeat (destruct Hin as [<-|Hin]; [cbn [files r_type update_recommendation
                                            create_recommendation];
                                       rewrite length_map, length_firstn;
                                       split; [lia|auto]|]);
    destruct Hin.
Qed.

Lemma recommendations_follow_the_lists_witness :
  exists r, analyzeSync Scenario.drift_world Scenario.config = Ok r /\
            (length (recommendations r) <= 2)%nat.
Proof.
  eexists. split; [reflexivity|].
  apply (recommendations_follow_the_lists Scenario.drift_world Scenario.config).
  reflexivity.
Defined.



End SyncReportShape.

(** ** The command line *)

Section CommandLine.
Import SyncCheckerCli.







End CommandLine.

(** ** The extension mapping between documentation and source *)

Section Extensions.
Import SyncChecker.

Lemma substring_prefix (stem suf : string) :
  String.substring 0 (String.length (stem ++ suf) - String.length suf) (stem ++ suf)
  = stem.
Proof.
  rewrite length_append_str.
  replace (String.length stem + String.length suf - String.length suf)%nat
    with (String.length stem) by lia.
  induction stem as [|c stem IH]; [destruct suf; reflexivity|].
  rewrite append_cons. simpl. now rewrite IH.
Qed.

Lemma endsWith_last_char (a b : string) (c c' : ascii) :
  c <> c' -> Js.endsWith (a ++ String c "") (b ++ String c' "") = false.
Proof.
  intros Hne. destruct (Js.endsWith _ _) eqn:E; [|reflexivity].
  apply endsWith_inv in E as [pre E].
  rewrite <- append_assoc in E. now apply snoc_char_inj in E.
Qed.

Lemma endsWith_same_length (stem a p : string) :
  String.length p = String.length a ->
  Js.endsWith (stem ++ a) p = String.eqb a p.
Proof.
  intros Hlen. unfold Js.endsWith. rewrite length_append_str, Hlen.
  replace (String.length stem + String.length a - String.length a)%nat
    with (String.length stem) by lia.
  rewrite substring_skip, <- Hlen.
  replace (String.length p <=? String.length stem + String.length p)%nat with true
    by (symmetry; apply Nat.leb_le; lia).
  rewrite Hlen, substring_whole. reflexivity.
Qed.

Lemma replace_suffix_hit suffixes replacement stem suf :
  replace_suffix (suf :: suffixes) replacement (stem ++ suf) = stem ++ replacement.
Proof. simpl. now rewrite endsWith_app, substring_prefix. Qed.

Lemma replace_suffix_miss suf suffixes replacement s :
  Js.endsWith s suf = false ->
  replace_suffix (suf :: suffixes) replacement s = replace_suffix suffixes replacement s.
Proof. intros H. simpl. now rewrite H. Qed.

(** X11.  The source candidate of a documentation page is always a
    [.ts] file, whatever the extension of the source its name came
    from: [.md] and [.mdx] both become [.ts].  In the other direction
    [.ts], [.tsx], [.js] and [.jsx] become [.mdx], while a [.py] source
    keeps its name, so that its expected documentation file is a file
    of the same name below the documentation root. *)
Theorem candidate_extensions (stem : string) :
  doc_to_source_ext (stem ++ ".md") = stem ++ ".ts" /\
  doc_to_source_ext (stem ++ ".mdx") = stem ++ ".ts" /\
  source_to_doc_ext (stem ++ ".ts") = stem ++ ".mdx" /\
  source_to_doc_ext (stem ++ ".tsx") = stem ++ ".mdx" /\
  source_to_doc_ext (stem ++ ".js") = stem ++ ".mdx" /\
  source_to_doc_ext (stem ++ ".jsx") = stem ++ ".mdx" /\
  source_to_doc_ext (stem ++ ".py") = stem ++ ".py".
Proof.
  unfold doc_to_source_ext, source_to_doc_ext.
  assert (Hmd : Js.endsWith (stem ++ ".md") ".mdx" = false).
  { change (stem ++ ".md") with (stem ++ (".m" ++ "d")).
    rewrite <- append_assoc.
    apply (endsWith_last_char (stem ++ ".m") ".md" "d" "x"). discriminate. }
  assert (Hx : forall a c p c', c <> c' ->
             Js.endsWith (stem ++ (a ++ String c "")) (p ++ String c' "") = false).
  { intros a c p c' Hne. rewrite <- append_assoc. now apply endsWith_last_char. }
  repeat split.
  - rewrite replace_suffix_miss by exact Hmd. apply replace_suffix_hit.
  - apply replace_suffix_hit.
  - rewrite replace_suffix_miss by (apply (Hx ".t" "s"%char ".js" "x"%char); discriminate).
    rewrite replace_suffix_miss by (apply (Hx ".t" "s"%char ".ts" "x"%char); discriminate).
    rewrite replace_suffix_miss
      by (rewrite endsWith_same_length; reflexivity).
    apply replace_suffix_hit.
  - rewrite replace_suffix_miss
      by (rewrite endsWith_same_length; reflexivity).
    apply replace_suffix_hit.
  - rewrite replace_suffix_miss by (apply (Hx ".j" "s"%char ".js" "x"%char); discriminate).
    rewrite replace_suffix_miss by (apply (Hx ".j" "s"%char ".ts" "x"%char); discriminate).
    apply replace_suffix_hit.
  - apply replace_suffix_hit.
  - rewrite replace_suffix_miss by (apply (Hx ".p" "y"%char ".js" "x"%char); discriminate).
    rewrite replace_suffix_miss by (apply (Hx ".p" "y"%char ".ts" "x"%char); discriminate).
    rewrite replace_suffix_miss by (apply (Hx ".p" "y"%char ".j" "s"%char); discriminate).
    rewrite replace_suffix_miss by (apply (Hx ".p" "y"%char ".t" "s"%char); discriminate).
    reflexivity.
Qed.

End Extensions.

(** ** Discovery and structure in [CodebaseAnalyzer] *)

Section AnalyzerStructure.
Import CodebaseAnalyzer.

Lemma existsb_eqb_In (x : string) (acc : list string) :
  existsb (String.eqb x) acc = true <-> In x acc.
Proof.
  rewrite existsb_exists. split.
  - intros (y & Hin & Heq). apply String.eqb_eq in Heq. now subst.
  - intros Hin. exists x. split; [exact Hin | apply String.eqb_refl].
Qed.

Lemma unique_fold (xs : list string) : forall acc,
  List.NoDup acc ->
  let out := fold_left (fun acc x => if existsb (String.eqb x) acc then acc
                                     else acc ++ [x])%list xs acc in
  List.NoDup out /\ forall x, In x out <-> In x acc \/ In x xs.
Proof.
  induction xs as [|y xs IH]; intros acc Hnd; simpl.
  - split; [exact Hnd|]. intros x. tauto.
  - destruct (existsb (String.eqb y) acc) eqn:E.
    + destruct (IH acc Hnd) as [Hout Hin]. split; [exact Hout|].
      intros x. rewrite Hin. apply existsb_eqb_In in E.
      split; [tauto|]. intros [H|[<-|H]]; auto.
    + assert (Hnd' : List.NoDup (acc ++ [y])).
      { apply List.NoDup_app; [exact Hnd | repeat constructor; intros [] |].
        intros x Hx [<-|[]]. apply existsb_eqb_In in Hx. congruence. }
      destruct (IH _ Hnd') as [Hout Hin]. split; [exact Hout|].
      intros x. rewrite Hin, in_app_iff. simpl. tauto.
Qed.

Lemma unique_NoDup (xs : list string) : List.NoDup (Js.unique xs).
Proof. apply (unique_fold xs []). constructor. Qed.

Lemma unique_In (xs : list string) (x : string) : In x (Js.unique xs) <-> In x xs.
Proof.
  destruct (unique_fold xs [] (List.NoDup_nil _)) as [_ H].
  unfold Js.unique. rewrite H. simpl. tauto.
Qed.

Lemma glob_In w pattern root ignore p :
  In p (Glob.glob w pattern root ignore) ->
  minimatch w pattern p = true /\
  forall ig, In ig ignore -> minimatch w ig p = false.
Proof.
  unfold Glob.glob. destruct (Fs.at_path w root); [|intros []].
  intros H. apply filter_In in H as [_ H].
  apply andb_prop in H as [Hm Hig]. split; [exact Hm|].
  intros ig Hin. apply negb_true_iff in Hig.
  destruct (minimatch w ig p) eqn:E; [|reflexivity].
  assert (existsb (fun ig => minimatch w ig p) ignore = true)
    by (apply existsb_exists; eauto).
  congruence.
Qed.

Lemma collect_In {A B} (g : A -> list B) (ps : list A) : forall acc x,
  In x (fold_left (fun acc p => acc ++ g p)%list ps acc)
  <-> In x acc \/ exists p, In p ps /\ In x (g p).
Proof.
  induction ps as [|p ps IH]; intros acc x; simpl.
  - split; [tauto|]. intros [H|(p & [] & _)]. exact H.
  - rewrite IH, in_app_iff. split.
    + intros [[H|H]|(q & Hq & H)]; eauto.
    + intros [H|(q & [<-|Hq] & H)]; eauto.
Qed.

(** X12.  [discoverFiles] returns every path once, however many of the
    patterns match it, and returns a path exactly when [glob] matches it
    for one of the patterns in force: the given include patterns, or
    the ten default patterns when none are given. *)
Theorem discoverFiles_returns_each_match_once w rootPath includePatterns excludePatterns :
  List.NoDup (discoverFiles w rootPath includePatterns excludePatterns) /\
  forall f,
    In f (discoverFiles w rootPath includePatterns excludePatterns) <->
    exists pattern,
      In pattern (default defaultPatterns includePatterns) /\
      In f (Glob.glob w pattern rootPath excludePatterns).
Proof.
  unfold discoverFiles. split; [apply unique_NoDup|].
  intros f. rewrite unique_In, collect_In. simpl. tauto.
Qed.

(** X13.  The paths of the file nodes that [analyze] returns are
    pairwise different, each matches one of the patterns in force, and
    none matches an exclude pattern, be it one of the eight default
    ones or one of the caller's: the caller's exclude patterns are
    added to the default ones and never replace them. *)
Theorem analyze_keeps_default_excludes w rootPath options r :
  analyze w rootPath options = Ok r ->
  List.NoDup (map fn_path (files (structure r))) /\
  forall f,
    In f (map fn_path (files (structure r))) ->
    (exists pattern,
        In pattern (default defaultPatterns (includePatterns options)) /\
        minimatch w pattern f = true) /\
    (forall ig, In ig defaultExcludes -> minimatch w ig f = false) /\
    (forall ig, In ig (default [] (excludePatterns options)) ->
                minimatch w ig f = false).
Proof.
  intros H. apply analyze_spec in H as (Hfiles & _). rewrite Hfiles.
  unfold discoverFiles. split; [apply unique_NoDup|]. intros f Hf.
  apply unique_In, collect_In in Hf as [[]|(pattern & Hp & Hg)].
  apply glob_In in Hg as [Hm Hig].
  split; [eauto|]. split; intros ig Hi; apply Hig, in_app_iff; auto.
Qed.

Lemma analyze_keeps_default_excludes_witness :
  exists r,
    analyze ScenarioDocs.project_world "src" ScenarioDocs.standard_options = Ok r /\
    List.NoDup (map fn_path (files (structure r))).
Proof.
  eexists. split; [vm_compute; reflexivity|].
  apply (analyze_keeps_default_excludes
           ScenarioDocs.project_world "src" ScenarioDocs.standard_options _ eq_refl).
Defined.

(** X14.  [extractAPIs] keeps the first candidates in discovery order
    and never more than 100 of them, 10 when the depth is [quick]; any
    other depth, [comprehensive] included, gives the limit of 100, and
    the quick result is the first ten entries of the result of any other
    depth. *)
Theorem extractAPIs_is_capped files depth :
  map api_file (extractAPIs files depth)
  = firstn (api_limit depth) (List.filter is_api_candidate files) /\
  length (extractAPIs files depth)
  = Nat.min (api_limit depth) (length (List.filter is_api_candidate files)) /\
  (length (extractAPIs files depth) <= 100)%nat /\
  (length (extractAPIs files "quick") <= 10)%nat /\
  extractAPIs files "quick" = firstn 10 (extractAPIs files depth) /\
  extractAPIs files "comprehensive" = extractAPIs files "standard".
Proof.
  assert (Hmap : map api_file (extractAPIs files depth)
                 = firstn (api_limit depth) (List.filter is_api_candidate files)).
  { unfold extractAPIs. rewrite map_map. simpl. apply map_id. }
  assert (Hlen : length (extractAPIs files depth)
                 = Nat.min (api_limit depth)
                           (length (List.filter is_api_candidate files))).
  { rewrite <- (length_map api_file), Hmap. apply length_firstn. }
  assert (Hlimit : (api_limit depth <= 100)%nat)
    by (unfold api_limit; destruct (String.eqb depth "quick"); lia).
  split; [exact Hmap|]. split; [exact Hlen|]. split.
  { rewrite Hlen. apply Nat.le_trans with (api_limit depth);
      [apply Nat.le_min_l | exact Hlimit]. }
  split.
  - unfold extractAPIs. rewrite length_map, length_firstn. apply Nat.le_min_l.
  - split; [|reflexivity].
    unfold extractAPIs. rewrite <- firstn_map.
    change (if String.eqb "quick" "quick" then 10 else 100)%nat with 10%nat.
    rewrite <- !firstn_map, firstn_firstn.
    destruct (String.eqb depth "quick"); reflexivity.
Qed.

Lemma fileNode_language file : language (fileNode file) = detectLanguage (Path.extname file).
Proof. reflexivity. Qed.

(** X15.  The structure that [buildStructure] returns lists the files
    it was given, in order; its languages are exactly the languages
    detected for these files, each listed once; its directory list is
    empty whatever the files are. *)
Theorem structure_lists_each_language_once w rootPath paths st :
  buildStructure w rootPath paths = Ok st ->
  map fn_path (files st) = paths /\
  directories st = [] /\
  List.NoDup (languages st) /\
  (forall l, In l (languages st) <->
             exists f, In f paths /\ language (fileNode f) = Some l) /\
  (forall l, In l (languages st) ->
             In l ["TypeScript"; "JavaScript"; "Python"; "Go"; "Rust"; "Java"]).
Proof.
  unfold buildStructure. intros H.
  apply bind_Ok in H as (fw & _ & H). inversion H; subst; clear H. simpl.
  assert (Hin : forall l,
             In l (Js.unique (omap (fun f => detectLanguage (Path.extname f)) paths))
             <-> exists f, In f paths /\ language (fileNode f) = Some l).
  { intros l. rewrite unique_In. clear.
    induction paths as [|p ps IH]; simpl.
    - split; [intros [] | intros (f & [] & _)].
    - destruct (detectLanguage (Path.extname p)) as [l'|] eqn:E; simpl; rewrite IH.
      + split.
        * intros [<-|(f & Hf & Hl)]; [exists p | exists f]; auto.
        * intros (f & [<-|Hf] & Hl); [left | right; eauto].
          rewrite ?fileNode_language in Hl. congruence.
      + split.
        * intros (f & Hf & Hl). eauto.
        * intros (f & [<-|Hf] & Hl); [|eauto].
          rewrite ?fileNode_language in Hl. congruence. }
  split; [rewrite map_map; apply map_id|]. split; [reflexivity|].
  split; [apply unique_NoDup|]. split; [exact Hin|].
  intros l Hl. apply Hin in Hl as (f & _ & Hl).
  rewrite fileNode_language in Hl. unfold detectLanguage in Hl.
  repeat (destruct (String.eqb _ _); [inversion Hl; simpl; tauto|]).
  discriminate.
Qed.

Lemma structure_lists_each_language_once_witness :
  exists st,
    buildStructure ScenarioManifest.react_world "app" ["index.ts"; "b.tsx"; "c.md"]
    = Ok st /\
    languages st = ["TypeScript"] /\ List.NoDup (languages st).
Proof.
  eexists. split; [vm_compute; reflexivity|]. split; [vm_compute; reflexivity|].
  apply (structure_lists_each_language_once
           ScenarioManifest.react_world "app" ["index.ts"; "b.tsx"; "c.md"] _ eq_refl).
Defined.

End AnalyzerStructure.

(** ** The package manifest in [CodebaseAnalyzer] *)

Section Manifest.
Import CodebaseAnalyzer.

Lemma buildStructure_result w rootPath paths :
  buildStructure w rootPath paths
  = (if Fs.existsSync w (Path.join [rootPath; "package.json"]) then
       match Fs.readJson w (Path.join [rootPath; "package.json"]) with
       | Ok pkg =>
           Ok {| root := rootPath; directories := []; files := map fileNode paths;
                 languages :=
                   Js.unique (omap (fun f => detectLanguage (Path.extname f)) paths);
                 frameworks := detectFrameworks pkg |}
       | Throw e => Throw e
       end
     else
       Ok {| root := rootPath; directories := []; files := map fileNode paths;
             languages :=
               Js.unique (omap (fun f => detectLanguage (Path.extname f)) paths);
             frameworks := [] |}).
Proof.
  unfold buildStructure.
  destruct (Fs.existsSync w _); [|reflexivity].
  destruct (Fs.readJson w _); reflexivity.
Qed.




Lemma merged_lookup pkg key :
  (pkg_devDependencies pkg ∪ pkg_dependencies pkg) !! key = merged_dependency pkg key.
Proof.
  unfold merged_dependency. rewrite lookup_union.
  destruct (pkg_devDependencies pkg !! key), (pkg_dependencies pkg !! key); reflexivity.
Qed.

(** X17.  A framework is detected exactly when its dependency has a
    truthy entry in the merged dependencies, where an entry of
    [devDependencies] overrides the entry of [dependencies] with the
    same name; the detected frameworks are listed once each. *)
Theorem detectFrameworks_reads_merged_dependencies pkg key label :
  In (key, label) framework_table ->
  (In label (detectFrameworks pkg) <-> truthy (merged_dependency pkg key) = true) /\
  List.NoDup (detectFrameworks pkg).
Proof.
  intros Hin. unfold detectFrameworks. simpl.
  rewrite !merged_lookup.
  split.
  - simpl in Hin.
    destruct Hin as [H|[H|[H|[H|[H|[]]]]]]; inversion H; subst; clear H;
      destruct (truthy (merged_dependency pkg "react")),
               (truthy (merged_dependency pkg "next")),
               (truthy (merged_dependency pkg "vue")),
               (truthy (merged_dependency pkg "express")),
               (truthy (merged_dependency pkg "fastapi"));
      simpl; split; intros H; try reflexivity; try discriminate;
      repeat (destruct H as [H|H]; try discriminate); auto 10.
  - destruct (truthy (merged_dependency pkg "react")),
             (truthy (merged_dependency pkg "next")),
             (truthy (merged_dependency pkg "vue")),
             (truthy (merged_dependency pkg "express")),
             (truthy (merged_dependency pkg "fastapi"));
      simpl; repeat constructor; simpl; intuition discriminate.
Qed.

Lemma detectFrameworks_reads_merged_dependencies_witness :
  In "React" (detectFrameworks ScenarioManifest.react_manifest) <->
  truthy (merged_dependency ScenarioManifest.react_manifest "react") = true.
Proof.
  apply (detectFrameworks_reads_merged_dependencies
           ScenarioManifest.react_manifest "react" "React").
  simpl. auto.
Defined.

(** X18.  The suggested navigation of an analysis always starts with
    the groups Getting Started and API Reference, the latter also when
    no API was extracted; the group Guides follows exactly when a
    framework was detected, which needs a [package.json] in the root. *)
Theorem navigation_has_guides_iff_framework w rootPath options r :
  analyze w rootPath options = Ok r ->
  suggested_navigation r
  = ([getting_started; api_reference]
     ++ (if (0 <? length (frameworks (structure r)))%nat then [guides] else []))%list /\
  (In guides (suggested_navigation r) <-> frameworks (structure r) <> []) /\
  (Fs.existsSync w (Path.join [rootPath; "package.json"]) = false ->
   frameworks (structure r) = [] /\
   suggested_navigation r = [getting_started; api_reference]) /\
  (forall pkg,
      Fs.existsSync w (Path.join [rootPath; "package.json"]) = true ->
      Fs.readJson w (Path.join [rootPath; "package.json"]) = Ok pkg ->
      frameworks (structure r) = detectFrameworks pkg).
Proof.
  unfold analyze. rewrite buildStructure_result. intros H.
  apply bind_Ok in H as (st & Hst & H).
  apply bind_Ok in H as (md & _ & H).
  inversion H; subst; clear H. simpl.
  split; [reflexivity|]. split.
  - unfold generateNavigation. destruct (frameworks st) as [|fw fws]; simpl.
    + split; [intros [H|[H|[]]]; discriminate | congruence].
    + split; [discriminate | auto].
  - split.
    + intros Hex. rewrite Hex in Hst. inversion Hst; subst; clear Hst. auto.
    + intros pkg Hex Hread. rewrite Hex, Hread in Hst.
      inversion Hst; subst; clear Hst. reflexivity.
Qed.

Lemma navigation_has_guides_iff_framework_witness :
  exists r,
    analyze ScenarioManifest.react_world "app" ScenarioDocs.standard_options = Ok r /\
    suggested_navigation r = [getting_started; api_reference; guides].
Proof.
  eexists. split; [vm_compute; reflexivity|].
  apply (navigation_has_guides_iff_framework
           ScenarioManifest.react_world "app" ScenarioDocs.standard_options _ eq_refl).
Defined.

(** X19.  The name in the metadata is the last component of the root
    path whenever the root has a [pyproject.toml], also when a
    [package.json] gives another name, and whenever the manifest has no
    name or an empty one; version, description, repository and author
    are those of [package.json], and are absent without it. *)
Theorem metadata_name_follows_pyproject w rootPath m :
  extractMetadata w rootPath = Ok m ->
  (Fs.existsSync w (Path.join [rootPath; "pyproject.toml"]) = true ->
   md_name m = Path.basename rootPath "") /\
  (Fs.existsSync w (Path.join [rootPath; "package.json"]) = false ->
   m = {| md_name := Path.basename rootPath ""; version := None;
          md_description := None; repository := None; author := None |}) /\
  (forall pkg,
      Fs.existsSync w (Path.join [rootPath; "package.json"]) = true ->
      Fs.readJson w (Path.join [rootPath; "package.json"]) = Ok pkg ->
      version m = pkg_version pkg /\
      md_description m = pkg_description pkg /\
      author m = pkg_author pkg /\
      (Fs.existsSync w (Path.join [rootPath; "pyproject.toml"]) = false ->
       md_name m = or_else (pkg_name pkg) (Path.basename rootPath ""))).
Proof.
  unfold extractMetadata. intros H.
  destruct (Fs.existsSync w (Path.join [rootPath; "package.json"])) eqn:Ex.
  - destruct (Fs.readJson w (Path.join [rootPath; "package.json"])) as [pkg|e] eqn:Er;
      [|discriminate].
    simpl in H.
    destruct (Fs.existsSync w (Path.join [rootPath; "pyproject.toml"])) eqn:Ep;
      inversion H; subst; clear H; simpl.
    + split; [reflexivity|]. split; [discriminate|].
      intros pkg' _ Hp. inversion Hp; subst. repeat split. discriminate.
    + split; [discriminate|]. split; [discriminate|].
      intros pkg' _ Hp. inversion Hp; subst. repeat split.
  - simpl in H.
    destruct (Fs.existsSync w (Path.join [rootPath; "pyproject.toml"])) eqn:Ep;
      inversion H; subst; clear H; simpl.
    + split; [reflexivity|]. split; [reflexivity|]. intros pkg Hf. discriminate.
    + split; [discriminate|]. split; [reflexivity|]. intros pkg Hf. discriminate.
Qed.

Lemma metadata_name_follows_pyproject_witness :
  exists m,
    extractMetadata ScenarioManifest.mixed_world "app" = Ok m /\
    md_name m = "app" /\
    pkg_name ScenarioManifest.react_manifest = Some "web-app".
Proof.
  eexists. split; [vm_compute; reflexivity|]. split; [|reflexivity].
  apply (proj1 (metadata_name_follows_pyproject
                  ScenarioManifest.mixed_world "app" _ eq_refl)).
  vm_compute. reflexivity.
Defined.

End Manifest.

(** ** The result of [validate] as a whole *)

Section ValidationSummary.
Import DocumentationValidator.

Lemma validate_file_count w docsPath options file acc acc' :
  validate_file w docsPath options file acc = Ok acc' ->
  exists content,
    Fs.readFile w (Path.join [docsPath; file]) = Ok content /\
    acc_errors acc' = (acc_errors acc ++ file_errors w docsPath options file content)%list /\
    filesWithErrors acc'
    = (filesWithErrors acc
       + if (0 <? length (file_errors w docsPath options file content))%nat
         then 1 else 0)%nat.
Proof.
  unfold validate_file. intros H.
  apply bind_Ok in H as (content & Hread & H). inversion H; subst; clear H.
  exists content. split; [exact Hread|]. simpl. unfold file_errors.
  split; [reflexivity|].
  rewrite length_app.
  destruct (validateFrontmatter w file content options) as [|e es]; simpl.
  - destruct (checkLinks options); simpl; [|lia].
    destruct (validateLinks w file content docsPath); simpl; lia.
  - lia.
Qed.

Lemma validate_loop_count w docsPath options files : forall acc acc',
  for_of (validate_file w docsPath options) files acc = Ok acc' ->
  exists added k,
    acc_errors acc' = (acc_errors acc ++ added)%list /\
    filesWithErrors acc' = (filesWithErrors acc + k)%nat /\
    (k <= length files)%nat /\ (k <= length added)%nat /\
    (k = 0%nat <-> added = []).
Proof.
  induction files as [|file rest IH]; intros acc acc' H; simpl in H.
  - inversion H; subst. exists [], 0%nat. rewrite app_nil_r. simpl.
    repeat split; auto; lia.
  - apply bind_Ok in H as (mid & Hstep & Hrest).
    apply validate_file_count in Hstep as (content & _ & He & Hc).
    apply IH in Hrest as (added & k & He' & Hc' & Hk1 & Hk2 & Hk3).
    set (block := file_errors w docsPath options file content) in *.
    exists (block ++ added)%list,
           ((if (0 <? length block)%nat then 1 else 0) + k)%nat.
    rewrite He', He, Hc', Hc, <- app_assoc, length_app. simpl.
    destruct block as [|e es]; simpl.
    + repeat split; auto; try lia; apply Hk3.
    + repeat split; try lia; discriminate.
Qed.

(** X20.  The summary of a validation result agrees with its lists:
    the totals are the lengths of the error and warning lists and the
    number of matched pages, the result is valid exactly when the error
    list is empty (warnings never make it invalid), and the number of
    files with errors is at most the number of pages and at most the
    number of errors, and is zero exactly when there is no error. *)
Theorem validate_summary_is_consistent w docsPath options r :
  validate w docsPath options = Ok r ->
  total_files (summary r) = length (Glob.glob w "**/*.{md,mdx}" docsPath []) /\
  total_errors (summary r) = length (errors r) /\
  total_warnings (summary r) = length (warnings r) /\
  (valid r = true <-> errors r = []) /\
  (files_with_errors (summary r) <= total_files (summary r))%nat /\
  (files_with_errors (summary r) <= total_errors (summary r))%nat /\
  (files_with_errors (summary r) = 0%nat <-> errors r = []).
Proof.
  unfold validate. intros H.
  apply bind_Ok in H as (acc & Hloop & H). inversion H; subst; clear H. simpl.
  apply validate_loop_count in Hloop as (added & k & He & Hc & Hk1 & Hk2 & Hk3).
  simpl in He, Hc. rewrite He, Hc.
  repeat split; try lia; try tauto.
  - intros Hv. apply Nat.eqb_eq in Hv. now destruct added.
  - intros ->. reflexivity.
Qed.

Lemma validate_summary_is_consistent_witness :
  exists r,
    validate ScenarioDocs.before_world "docs" lenient = Ok r /\
    total_errors (summary r) = length (errors r).
Proof.
  eexists. split; [vm_compute; reflexivity|].
  apply (validate_summary_is_consistent ScenarioDocs.before_world "docs" lenient _ eq_refl).
Defined.

Lemma frontmatter_severity w file content options e :
  strict options = false ->
  In e (validateFrontmatter w file content options) -> severity e = error.
Proof.
  unfold validateFrontmatter. intros Hs H.
  destruct (matter w content) as [data|err].
  - rewrite Hs, andb_false_r, app_nil_r in H.
    destruct (negb _); [destruct H as [<-|[]]; reflexivity | destruct H].
  - destruct H as [<-|[]]. reflexivity.
Qed.

(** X21.  What the options switch off is absent from the result:
    without [checkLinks] no error has type [broken_link], without
    [checkCodeExamples] every warning is one of the two that
    [checkCommonIssues] gives, and without [strict] every entry of the
    error list has severity [error]. *)
Theorem validate_options_gate_the_checks w docsPath options r :
  validate w docsPath options = Ok r ->
  (checkLinks options = false ->
   forall e, In e (errors r) -> e_type e <> "broken_link") /\
  (checkCodeExamples options = false ->
   forall x, In x (warnings r) ->
             In (w_type x) ["absolute_internal_url"; "missing_alt_text"]) /\
  (strict options = false ->
   forall e, In e (errors r) -> severity e = error).
Proof.
  intros H. split; [|split].
  - intros Hoff e He.
    destruct (reported_errors_origin _ _ _ _ _ H He) as (file & content & _ & _ & Hin).
    unfold file_errors in Hin. rewrite Hoff, app_nil_r in Hin.
    now apply frontmatter_entries_type in Hin.
  - intros Hoff x Hx.
    destruct (reported_warnings_origin _ _ _ _ _ H Hx) as (file & content & Hin).
    unfold file_warnings in Hin. rewrite Hoff in Hin. simpl in Hin.
    unfold checkCommonIssues in Hin. apply in_app_or in Hin as [Hin|Hin].
    + destruct (_ || _); [|destruct Hin]. destruct Hin as [<-|[]]. simpl. auto.
    + destruct (has_empty_alt_image content); [|destruct Hin].
      destruct Hin as [<-|[]]. simpl. auto.
  - intros Hoff e He.
    destruct (reported_errors_origin _ _ _ _ _ H He) as (file & content & _ & _ & Hin).
    unfold file_errors in Hin. apply in_app_or in Hin as [Hin|Hin].
    + now apply frontmatter_severity in Hin.
    + destruct (checkLinks options); [|destruct Hin].
      apply validateLinks_entries in Hin as (? & ? & _ & -> & _). reflexivity.
Qed.

Lemma validate_options_gate_the_checks_witness :
  exists r,
    validate ScenarioDocs.before_world "docs" ScenarioValidation.no_checks = Ok r /\
    forall e, In e (errors r) -> e_type e <> "broken_link".
Proof.
  eexists. split; [vm_compute; reflexivity|].
  apply (proj1 (validate_options_gate_the_checks
                  ScenarioDocs.before_world "docs" ScenarioValidation.no_checks
                  _ eq_refl)).
  reflexivity.
Defined.



Lemma validate_file_ok w docsPath options file acc :
  is_ok (validate_file w docsPath options file acc)
  = is_ok (Fs.readFile w (Path.join [docsPath; file])).
Proof.
  unfold validate_file.
  destruct (Fs.readFile w (Path.join [docsPath; file])); reflexivity.
Qed.

Lemma validate_loop_ok w docsPath options files : forall acc,
  is_ok (for_of (validate_file w docsPath options) files acc)
  = forallb (fun file => is_ok (Fs.readFile w (Path.join [docsPath; file]))) files.
Proof.
  induction files as [|file rest IH]; intros acc; simpl; [reflexivity|].
  rewrite <- (validate_file_ok w docsPath options file acc).
  destruct (validate_file w docsPath options file acc) as [mid|e]; simpl.
  - apply IH.
  - reflexivity.
Qed.

(** X23.  [validate] returns a result exactly when every path that
    the pattern matches can be read as a file: one match that cannot,
    such as a directory whose name ends in [.md], makes the whole
    validation fail, whatever the other pages are. *)
Theorem validate_needs_every_match_readable w docsPath options :
  is_ok (validate w docsPath options) = all_readable w docsPath.
Proof.
  unfold validate, all_readable.
  rewrite <- (validate_loop_ok w docsPath options _
                {| acc_errors := []; acc_warnings := []; filesWithErrors := 0 |}).
  destruct (for_of _ _ _); reflexivity.
Qed.

Lemma validate_needs_every_match_readable_witness :
  validate ScenarioValidation.directory_match_world "docs" lenient
  = Throw (EISDIR "docs/notes.md") /\
  is_ok (validate ScenarioValidation.directory_match_world "docs" lenient) = false.
Proof.
  split; [vm_compute; reflexivity|].
  rewrite (validate_needs_every_match_readable
             ScenarioValidation.directory_match_world "docs" lenient).
  vm_compute. reflexivity.
Defined.

End ValidationSummary.

(** ** Scanning a page for links, code blocks and images *)

Section Scanning.
Import DocumentationValidator.

Lemma span_lacks (c : ascii) (t rest : string) :
  lacks c t = true ->
  Js.span (not_char c) (t ++ String c rest) = (t, String c rest).
Proof.
  induction t as [|x t IH]; intros H.
  - rewrite append_nil_l. simpl. unfold not_char. now rewrite Ascii.eqb_refl.
  - simpl in H. apply andb_prop in H as [Hx Ht].
    rewrite append_cons. simpl. unfold not_char at 1. rewrite Hx.
    now rewrite (IH Ht).
Qed.

Lemma exec_from_skip {A} (m : string -> option (A * nat)) (s1 s2 : string) :
  Js.exec_from m (String.length s1) (s1 ++ s2) = Js.exec_from m 0 s2.
Proof.
  induction s1 as [|c s1 IH]; [reflexivity|].
  rewrite append_cons. simpl. exact IH.
Qed.

Lemma exec_from_miss {A} (m : string -> option (A * nat)) (pre s : string) :
  (forall c rest, In c (list_ascii_of_string pre) -> m (String c rest) = None) ->
  Js.exec_from m 0 (pre ++ s) = Js.exec_from m 0 s.
Proof.
  induction pre as [|c pre IH]; intros H; [reflexivity|].
  rewrite append_cons. simpl. rewrite (H c (pre ++ s)) by (simpl; auto).
  apply IH. intros c' rest Hin. apply H. simpl. auto.
Qed.

Lemma lacks_In (c : ascii) (s : string) (x : ascii) :
  lacks c s = true -> In x (list_ascii_of_string s) -> x <> c.
Proof.
  induction s as [|y s IH]; simpl; [tauto|].
  intros H [<-|Hin].
  - apply andb_prop in H as [H _]. apply negb_true_iff, Ascii.eqb_neq in H. exact H.
  - apply andb_prop in H as [_ H]. auto.
Qed.

Lemma link_at_other (c : ascii) (rest : string) :
  c <> "["%char -> link_at (String c rest) = None.
Proof.
  intros H. destruct c as [[] [] [] [] [] [] [] []]; try reflexivity.
  now contradict H.
Qed.

Lemma link_at_rendered (text url post : string) :
  String.eqb text "" = false -> lacks "]" text = true ->
  String.eqb url "" = false -> lacks ")" url = true ->
  link_at (String "[" (text ++ String "]" (String "(" (url ++ String ")" post))))
  = Some ((text, url), (String.length text + String.length url + 4)%nat).
Proof.
  intros Ht Hlt Hu Hlu. unfold link_at.
  rewrite (span_lacks "]" text _ Hlt), Ht.
  rewrite (span_lacks ")" url _ Hlu), Hu. reflexivity.
Qed.

(** X24.  [validateLinks] goes through a page link by link: a link
    [[text](url)] whose text has no closing bracket and whose target has
    no closing parenthesis, after text without opening bracket, is
    checked once, and the scan goes on right after its closing
    parenthesis.  The preceding text may end in an exclamation mark,
    so that the target of an image is checked like that of a link.  A
    page without opening bracket has no link error. *)
Theorem validateLinks_scans_link_by_link w file docsPath pre text url post :
  lacks "[" pre = true ->
  String.eqb text "" = false -> lacks "]" text = true ->
  String.eqb url "" = false -> lacks ")" url = true ->
  validateLinks w file (pre ++ "[" ++ text ++ "](" ++ url ++ ")" ++ post) docsPath
  = (check_link w file docsPath url ++ validateLinks w file post docsPath)%list /\
  validateLinks w file pre docsPath = [].
Proof.
  intros Hpre Ht Hlt Hu Hlu.
  assert (Hmiss : forall c rest,
             In c (list_ascii_of_string pre) -> link_at (String c rest) = None).
  { intros c rest Hin. apply link_at_other. now apply (lacks_In _ pre). }
  unfold validateLinks, Js.exec_all. split.
  - rewrite exec_from_miss by exact Hmiss.
    change ("[" ++ text ++ "](" ++ url ++ ")" ++ post)
      with (String "[" (text ++ String "]" (String "(" (url ++ String ")" post)))).
    cbn [Js.exec_from]. rewrite link_at_rendered by assumption.
    replace (text ++ String "]" (String "(" (url ++ String ")" post)))
      with ((text ++ "](" ++ url ++ ")") ++ post)
      by (rewrite !append_assoc; reflexivity).
    replace (String.length text + String.length url + 4 - 1)%nat
      with (String.length (text ++ "](" ++ url ++ ")"))
      by (rewrite !length_append_str; simpl; lia).
    rewrite exec_from_skip. reflexivity.
  - rewrite <- (append_empty_r pre), exec_from_miss by exact Hmiss. reflexivity.
Qed.

Lemma validateLinks_scans_link_by_link_witness :
  validateLinks ScenarioDocs.before_world "index.mdx"
                ("!" ++ "[" ++ "logo" ++ "](" ++ "logo.png" ++ ")" ++ "") "docs"
  = [broken_link "index.mdx" "logo.png"].
Proof.
  rewrite (proj1 (validateLinks_scans_link_by_link
                    ScenarioDocs.before_world "index.mdx" "docs"
                    "!" "logo" "logo.png" ""
                    eq_refl eq_refl eq_refl eq_refl eq_refl)).
  vm_compute. reflexivity.
Defined.

End Scanning.

Section ScanningBlocks.
Import DocumentationValidator.

Lemma code_block_at_other (c : ascii) (rest : string) :
  c <> backtick -> code_block_at (String c rest) = None.
Proof.
  intros H. destruct c as [[] [] [] [] [] [] [] []]; try reflexivity.
  now contradict H.
Qed.

Lemma span_all_word (lang rest : string) :
  all_word lang = true ->
  Js.span isWordChar (lang ++ String (ascii_of_nat 10) rest)
  = (lang, String (ascii_of_nat 10) rest).
Proof.
  induction lang as [|x lang IH]; intros H; [reflexivity|].
  simpl in H. apply andb_prop in H as [Hx Hl].
  rewrite append_cons. simpl. rewrite Hx. now rewrite (IH Hl).
Qed.

Lemma prefix_fence_other (c : ascii) (s : string) :
  c <> backtick -> String.prefix fence (String c s) = false.
Proof.
  intros H.
  change (String.prefix fence (String c s))
    with (if ascii_dec "`" c then String.prefix "``" s else false).
  destruct (ascii_dec "`" c) as [E|_]; [|reflexivity].
  now contradict H.
Qed.

Lemma before_first_cons (needle : string) (c : ascii) (rest : string) :
  Js.before_first needle (String c rest)
  = if String.prefix needle (String c rest) then Some ""
    else match Js.before_first needle rest with
         | Some b => Some (String c b)
         | None => None
         end.
Proof. reflexivity. Qed.

Lemma before_first_fence (code post : string) :
  lacks backtick code = true ->
  Js.before_first fence (code ++ fence ++ post) = Some code.
Proof.
  induction code as [|c code IH]; intros H.
  - rewrite append_nil_l. unfold fence.
    change ("```" ++ post) with (String "`" (String "`" (String "`" post))).
    destruct post; reflexivity.
  - simpl in H. apply andb_prop in H as [Hc Hl].
    apply negb_true_iff, Ascii.eqb_neq in Hc.
    rewrite append_cons, before_first_cons, (prefix_fence_other c _ Hc).
    now rewrite (IH Hl).
Qed.

Lemma code_block_at_rendered (lang code post : string) :
  all_word lang = true -> lacks backtick code = true ->
  code_block_at (fence ++ lang ++ line_feed ++ code ++ fence ++ post)
  = Some ((if String.eqb lang "" then None else Some lang, code),
          (String.length lang + String.length code + 7)%nat).
Proof.
  intros Hl Hc.
  change (fence ++ lang ++ line_feed ++ code ++ fence ++ post)
    with (String "`" (String "`" (String "`"
            (lang ++ String (ascii_of_nat 10) (code ++ fence ++ post))))).
  unfold code_block_at. rewrite (span_all_word lang _ Hl).
  rewrite Ascii.eqb_refl, (before_first_fence code post Hc). reflexivity.
Qed.

(** X25.  [validateCodeExamples] goes through a page block by block:
    a fenced block whose language consists of word characters and whose
    code has no backtick, after text without backtick, gives the
    warning [missing_code_language] when its language is empty and the
    warning [empty_code_block] when its code is blank, and the scan goes
    on right after its closing fence.  A page without backtick has no
    code warning. *)
Theorem validateCodeExamples_scans_block_by_block file pre lang code post :
  lacks backtick pre = true ->
  all_word lang = true ->
  lacks backtick code = true ->
  validateCodeExamples file (pre ++ fence ++ lang ++ line_feed ++ code ++ fence ++ post)
  = (block_warnings file lang code ++ validateCodeExamples file post)%list /\
  validateCodeExamples file pre = [].
Proof.
  intros Hpre Hl Hc.
  assert (Hmiss : forall c rest,
             In c (list_ascii_of_string pre) -> code_block_at (String c rest) = None).
  { intros c rest Hin. apply code_block_at_other. now apply (lacks_In _ pre). }
  unfold validateCodeExamples, Js.exec_all. split.
  - rewrite exec_from_miss by exact Hmiss.
    pose proof (code_block_at_rendered lang code post Hl Hc) as Hat.
    replace (fence ++ lang ++ line_feed ++ code ++ fence ++ post)
      with (String "`" (("``" ++ lang ++ line_feed ++ code ++ fence) ++ post)) in *
      by (rewrite !append_assoc; reflexivity).
    cbn [Js.exec_from]. rewrite Hat.
    replace (String.length lang + String.length code + 7 - 1)%nat
      with (String.length ("``" ++ lang ++ line_feed ++ code ++ fence))
      by (rewrite !length_append_str; simpl; lia).
    rewrite exec_from_skip. cbn [flat_map fst snd].
    unfold block_warnings. destruct (String.eqb lang ""); reflexivity.
  - rewrite <- (append_empty_r pre), exec_from_miss by exact Hmiss. reflexivity.
Qed.

Lemma validateCodeExamples_scans_block_by_block_witness :
  validateCodeExamples "page.md"
    ("Run:" ++ fence ++ "" ++ line_feed ++ " " ++ fence ++ "")
  = [{| w_file := "page.md"; w_type := "missing_code_language";
        w_message := "Code block missing language specifier" |};
     {| w_file := "page.md"; w_type := "empty_code_block";
        w_message := "Empty code block found" |}].
Proof.
  rewrite (proj1 (validateCodeExamples_scans_block_by_block
                    "page.md" "Run:" "" " " "" eq_refl eq_refl eq_refl)).
  vm_compute. reflexivity.
Defined.

Lemma empty_alt_image_at_rendered (url post : string) :
  String.eqb url "" = false -> lacks ")" url = true ->
  empty_alt_image_at ("![](" ++ url ++ ")" ++ post) = true.
Proof.
  intros Hu Hl.
  change ("![](" ++ url ++ ")" ++ post)
    with (String "!" (String "[" (String "]" (String "(" (url ++ String ")" post))))).
  unfold empty_alt_image_at. rewrite (span_lacks ")" url _ Hl), Hu. reflexivity.
Qed.

Lemma has_empty_alt_image_app (pre s : string) :
  empty_alt_image_at s = true -> has_empty_alt_image (pre ++ s) = true.
Proof.
  intros H. induction pre as [|c pre IH].
  - rewrite append_nil_l. destruct s as [|x s]; [discriminate H|].
    cbn [has_empty_alt_image]. now rewrite H.
  - rewrite append_cons. cbn [has_empty_alt_image]. rewrite IH. apply orb_true_r.
Qed.

(** X26.  [checkCommonIssues] gives at most one warning of each of
    its two types for a page, however often the patterns occur, and
    gives [missing_alt_text] for every page that contains an image
    with empty alternative text and a non-empty target. *)
Theorem checkCommonIssues_warns_once_per_type file pre url post :
  String.eqb url "" = false -> lacks ")" url = true ->
  In (missing_alt_text_warning file)
     (checkCommonIssues file (pre ++ "![](" ++ url ++ ")" ++ post)) /\
  forall content,
    (length (checkCommonIssues file content) <= 2)%nat /\
    List.NoDup (map w_type (checkCommonIssues file content)).
Proof.
  intros Hu Hl. split.
  - unfold checkCommonIssues.
    rewrite (has_empty_alt_image_app pre _ (empty_alt_image_at_rendered url post Hu Hl)).
    apply in_or_app. right. simpl. auto.
  - intros content. unfold checkCommonIssues.
    destruct (_ || _), (has_empty_alt_image content); simpl;
      (split; [lia | repeat constructor; simpl; intuition discriminate]).
Qed.

Lemma checkCommonIssues_warns_once_per_type_witness :
  In (missing_alt_text_warning "page.md")
     (checkCommonIssues "page.md" ("Logo: " ++ "![](" ++ "logo.png" ++ ")" ++ ".")).
Proof.
  apply (proj1 (checkCommonIssues_warns_once_per_type
                  "page.md" "Logo: " "logo.png" "." eq_refl eq_refl)).
Defined.

End ScanningBlocks.
